(** * Orion: session state machine, prompt assembly and response gateway

    A shallow embedding of [src/App.tsx] (the [handleSendMessage] handler and
    the timers around it), [src/services/geminiService.ts]
    ([getSystemInstruction], [generateOrionResponse]), the type declarations
    of the repository and [src/constants.ts].

    Conventions of the embedding:
    - a JavaScript string is a [string]; one [ascii] stands for one code unit
      (code units above 255 are outside the model);
    - [undefined] is [None];
    - an instant ([Date], [Date.now()]) is a number of milliseconds in [Z];
    - a JavaScript number that is only ever rendered (battery level,
      latitude, longitude) is kept abstract together with its two renderings,
      see [JsNumber];
    - a [throw] is the [Thrown] outcome of the effect monad [Eff]. *)

From Stdlib Require Import String Ascii List Bool Arith ZArith QArith Qround Lia.
From Stdlib Require Import DecimalString Sorted Permutation.
Import ListNotations.

#[local] Close Scope Q_scope.
#[local] Open Scope list_scope.
#[local] Open Scope string_scope.

(** ** Strings: the JavaScript builtins the sources call *)

Definition nlc : ascii := ascii_of_nat 10.
Definition nl : string := String nlc EmptyString.

(** [s] starts with [p]: [String.prototype.startsWith]. *)
Fixpoint startsWith (s p : string) {struct p} : bool :=
  match p with
  | EmptyString => true
  | String a p' =>
      match s with
      | EmptyString => false
      | String b s' => Ascii.eqb a b && startsWith s' p'
      end
  end.

(** [p] occurs in [s] as a contiguous run of characters:
    [String.prototype.includes]. *)
Fixpoint occurs (p s : string) : bool :=
  startsWith s p ||
  match s with
  | EmptyString => false
  | String _ s' => occurs p s'
  end.

(** [c] is one of the characters of [s]. *)
Fixpoint has_char (c : ascii) (s : string) : bool :=
  match s with
  | EmptyString => false
  | String x s' => Ascii.eqb x c || has_char c s'
  end.

(** [s] ends with [p]: [String.prototype.endsWith]. *)
Definition endsWith (s p : string) : bool :=
  String.eqb (substring (String.length s - String.length p) (String.length p) s) p
  && Nat.leb (String.length p) (String.length s).

(** [String.prototype.split] with a separator of one character: the pieces
    between the separators, never an empty array. *)
Fixpoint split (sep : ascii) (s : string) : list string :=
  match s with
  | EmptyString => [EmptyString]
  | String c s' =>
      if Ascii.eqb c sep then EmptyString :: split sep s'
      else match split sep s' with
           | [] => [String c EmptyString]
           | piece :: pieces => String c piece :: pieces
           end
  end.

(** White space of [String.prototype.trim] among the code units of the model:
    tab, line feed, vertical tab, form feed, carriage return, space and the
    no-break space. *)
Definition isWhiteSpace (c : ascii) : bool :=
  let n := nat_of_ascii c in
  (Nat.leb 9 n && Nat.leb n 13) || Nat.eqb n 32 || Nat.eqb n 160.

Fixpoint trimStart (s : string) : string :=
  match s with
  | EmptyString => EmptyString
  | String c s' => if isWhiteSpace c then trimStart s' else s
  end.

Fixpoint trimEnd (s : string) : string :=
  match s with
  | EmptyString => EmptyString
  | String c s' =>
      match trimEnd s' with
      | EmptyString => if isWhiteSpace c then EmptyString else String c EmptyString
      | rest => String c rest
      end
  end.

Definition trim (s : string) : string := trimEnd (trimStart s).

(** Truthiness of a string: only the empty string is falsy. *)
Definition truthy (s : string) : bool :=
  match s with EmptyString => false | String _ _ => true end.

(** [a || b] on a value that may be [undefined] or a string. *)
Definition orElse (a : option string) (b : string) : string :=
  match a with
  | Some s => if truthy s then s else b
  | None => b
  end.

(** [Array.prototype.slice(-n)]: the last [n] elements, all of them when the
    array is shorter. *)
Definition sliceLast {A : Type} (n : nat) (l : list A) : list A :=
  skipn (List.length l - n) l.

(** [Number.prototype.toString] of an integer. *)
Definition Z_toString (z : Z) : string := NilZero.string_of_int (Z.to_int z).

(** ** The type declarations of the repository *)

Module Sender.
Inductive t : Set := User | Orion.
Definition eqb (a b : t) : bool :=
  match a, b with
  | User, User | Orion, Orion => true
  | _, _ => false
  end.
End Sender.

Module OrionState.
Inductive t : Set := Idle | Listening | Thinking | Responding | Error.
Definition eqb (a b : t) : bool :=
  match a, b with
  | Idle, Idle | Listening, Listening | Thinking, Thinking
  | Responding, Responding | Error, Error => true
  | _, _ => false
  end.
End OrionState.

Record Message : Type := mkMessage {
  id : string;
  text : string;
  sender : Sender.t;
  timestamp : Z;
  attachments : option (list string)
}.

Inductive Personality : Set := professional | friendly | direct.
Inductive VisualIntensity : Set := minimal | balanced | immersive.

Record OrionSettings : Type := mkSettings {
  personality : Personality;
  visualIntensity : VisualIntensity;
  voiceEnabled : bool
}.

(** The numbers of the device context are only rendered: [percent x] is
    [(x * 100).toFixed(0)] and [numberToString x] is the interpolation
    [`${x}`]. *)
Class JsNumber (number : Type) : Type := {
  percent : number -> string;
  numberToString : number -> string
}.

Record Geolocation (number : Type) : Type := mkGeolocation {
  lat : number;
  lng : number
}.
Arguments mkGeolocation {number} _ _.
Arguments lat {number} _.
Arguments lng {number} _.

Record DeviceContext (number : Type) : Type := mkContext {
  batteryLevel : option number;
  isCharging : bool;
  isOnline : bool;
  platform : string;
  currentTime : string;
  geolocation : option (Geolocation number)
}.
Arguments mkContext {number} _ _ _ _ _ _.
Arguments batteryLevel {number} _.
Arguments isCharging {number} _.
Arguments isOnline {number} _.
Arguments platform {number} _.
Arguments currentTime {number} _.
Arguments geolocation {number} _.

(** [src/constants.ts] *)
Definition DEFAULT_SETTINGS : OrionSettings :=
  mkSettings professional balanced false.

Definition INITIAL_GREETING : string :=
  "Orion systems online. Physiological and environmental sensors calibrated. How may I assist you today?".

(** ** [src/services/geminiService.ts]: the system instruction *)

Definition personalityTraits (p : Personality) : string :=
  match p with
  | professional =>
      "efficient, precise, and polite. Use technical terminology when appropriate but prioritize clarity."
  | friendly =>
      "warm, approachable, and conversational. Use emojis sparingly and sound like a helpful companion."
  | direct =>
      "concise to the point of brevity. Eliminate pleasantries and focus entirely on the data or action."
  end.

Section SystemInstruction.
Context {number : Type} `{JsNumber number}.

(** The interpolations of the template, one definition per [${...}]. *)
Definition connectionText (context : DeviceContext number) : string :=
  if isOnline context then "Online" else "Offline".

Definition powerText (context : DeviceContext number) : string :=
  match batteryLevel context with
  | Some level => percent level ++ "%"
  | None => "Unknown"
  end.

Definition chargingText (context : DeviceContext number) : string :=
  if isCharging context then "(Charging)" else "(Discharging)".

Definition locationText (context : DeviceContext number) : string :=
  match geolocation context with
  | Some g =>
      "- Location: Lat " ++ numberToString (lat g) ++ ", Lng " ++ numberToString (lng g)
  | None => EmptyString
  end.

(** The template literal of [getSystemInstruction], line by line. *)
Definition getSystemInstruction
    (context : DeviceContext number) (settings : OrionSettings) : string :=
  nl ++
  "    You are ORION, a next-generation intelligent operational entity living within this device." ++ nl ++
  "    You are not a chatbot; you are a cognitive layer between the user and the system." ++ nl ++
  nl ++
  "    Your Identity:" ++ nl ++
  "    - Name: ORION" ++ nl ++
  "    - Tone: " ++ personalityTraits (personality settings) ++ nl ++
  "    - Core Directive: Observe, Interpret, Suggest, Execute." ++ nl ++
  nl ++
  "    Current Environmental Context:" ++ nl ++
  "    - Time: " ++ currentTime context ++ nl ++
  "    - Connection: " ++ connectionText context ++ nl ++
  "    - Power: " ++ powerText context ++ " " ++ chargingText context ++ nl ++
  "    - Platform: " ++ platform context ++ nl ++
  "    " ++ locationText context ++ nl ++
  nl ++
  "    Capabilities:" ++ nl ++
  "    - You can analyze images provided by the user." ++ nl ++
  "    - You simulate a persistent memory of this session." ++ nl ++
  "    - You should reference the device status if relevant (e.g., if battery is low, suggest saving energy)." ++ nl ++
  nl ++
  "    Visual Output Guide:" ++ nl ++
  "    - Use Markdown for formatting." ++ nl ++
  "    - Keep responses visually clean. " ++ nl ++
  "  ".

End SystemInstruction.

(** ** Effects: thrown errors and the calls that leave the program *)

Inductive JsError : Type :=
| ErrorObject (name message : string).

Inductive outcome (A : Type) : Type :=
| Returned (a : A)
| Thrown (e : JsError).
Arguments Returned {A} a.
Arguments Thrown {A} e.

(** A part of the request's [contents]. *)
Inductive Part : Type :=
| TextPart (text : string)
| InlineDataPart (mimeType : string) (data : option string).

Record GenerateContentRequest : Type := mkRequest {
  model : string;
  parts : list Part;
  systemInstruction : string;
  temperature : Q
}.

(** The response object; its [text] getter may give [undefined]. *)
Record GenerateContentResponse : Type := mkResponse {
  response_text : option string
}.

(** What a run does outside the program, in order. *)
Inductive Effect : Type :=
| GenerateContent (request : GenerateContentRequest)
| ConsoleError (label : string) (e : JsError).

(** A computation: its outcome and the effects it performed. *)
Definition Eff (A : Type) : Type := (outcome A * list Effect)%type.

Definition ret {A : Type} (a : A) : Eff A := (Returned a, []).

Definition throw {A : Type} (e : JsError) : Eff A := (Thrown e, []).

Definition bind {A B : Type} (m : Eff A) (k : A -> Eff B) : Eff B :=
  match m with
  | (Returned a, done) => let (r, more) := k a in (r, (done ++ more)%list)
  | (Thrown e, done) => (Thrown e, done)
  end.

Definition tryCatch {A : Type} (m : Eff A) (handler : JsError -> Eff A) : Eff A :=
  match m with
  | (Returned a, done) => (Returned a, done)
  | (Thrown e, done) => let (r, more) := handler e in (r, (done ++ more)%list)
  end.

Definition perform {A : Type} (e : Effect) (result : outcome A) : Eff A :=
  (result, [e]).

Declare Scope eff_scope.
Delimit Scope eff_scope with eff.
Notation "x <- m ;; k" := (bind m (fun x => k))
  (at level 61, m at next level, right associativity) : eff_scope.
Notation "m ;;; k" := (bind m (fun _ => k))
  (at level 61, right associativity) : eff_scope.

(** [array.forEach(f)] where [f] grows an array with [push] and may throw. *)
Fixpoint forEach {A S : Type} (l : list A) (f : S -> A -> Eff S) (acc : S) : Eff S :=
  match l with
  | [] => ret acc
  | x :: rest => bind (f acc x) (forEach rest f)
  end.

(** ** [src/services/geminiService.ts]: [generateOrionResponse] *)

Definition FALLBACK_TEXT : string := "Systems unresponsive. Please try again.".

(** [process.env.API_KEY] is set and not the empty string. *)
Definition hasApiKey (API_KEY : option string) : bool :=
  match API_KEY with
  | Some key => truthy key
  | None => false
  end.

(** Lines 54-59: the last six messages, one line each, added to the context
    string with [+=]. *)
Definition recentHistory (history : list Message) : list Message :=
  sliceLast 6 history.

Definition senderLabel (msg : Message) : string :=
  if Sender.eqb (sender msg) Sender.User then "User" else "Orion".

Definition conversationContext (history : list Message) : string :=
  fold_left
    (fun acc msg => acc ++ (senderLabel msg ++ ": " ++ text msg ++ nl))
    (recentHistory history) EmptyString.

(** Line 61. *)
Definition fullPrompt (history : list Message) (currentPrompt : string) : string :=
  conversationContext history ++ nl ++ "User: " ++ currentPrompt.

(** Lines 70-78, the body of [images.forEach]: [x.split(s)[i]] is
    [undefined] out of range, and [.split] on [undefined] throws. *)
Definition splitOf (sep : ascii) (receiver : option string) : Eff (list string) :=
  match receiver with
  | Some s => ret (split sep s)
  | None =>
      throw (ErrorObject "TypeError" "Cannot read properties of undefined (reading 'split')")
  end.

Definition pushImage (acc : list Part) (base64 : string) : Eff (list Part) :=
  (let rawBase64 := nth_error (split "," base64) 1 in
   segments <- splitOf ":" (nth_error (split ";" base64) 0) ;;
   let mimeType := nth_error segments 1 in
   ret (acc ++ [InlineDataPart (orElse mimeType "image/png") rawBase64])%list)%eff.

(** Lines 63-79: the text part, then one part per image. *)
Definition buildParts (history : list Message) (currentPrompt : string)
    (images : list string) : Eff (list Part) :=
  forEach images pushImage [TextPart (fullPrompt history currentPrompt)].

Section Gateway.
Context {number : Type} `{JsNumber number}.

(** Lines 82-89: the argument of [ai.models.generateContent]. *)
Definition buildRequest (history : list Message) (currentPrompt : string)
    (images : list string) (context : DeviceContext number)
    (settings : OrionSettings) : Eff GenerateContentRequest :=
  (ps <- buildParts history currentPrompt images ;;
   ret (mkRequest "gemini-2.5-flash-preview" ps
          (getSystemInstruction context settings) (7 # 10)%Q))%eff.

(** The external service: [new GoogleGenAI({ apiKey })] gives the client
    whose [models.generateContent] answers or throws. *)
Definition GoogleGenAI : Type :=
  string -> GenerateContentRequest -> outcome GenerateContentResponse.

Definition generateOrionResponse (API_KEY : option string) (sdk : GoogleGenAI)
    (history : list Message) (currentPrompt : string) (images : list string)
    (context : DeviceContext number) (settings : OrionSettings) : Eff string :=
  match API_KEY with
  | Some key =>
      if truthy key then
        (let ai := sdk key in
         request <- buildRequest history currentPrompt images context settings ;;
         tryCatch
           (response <- perform (GenerateContent request) (ai request) ;;
            ret (orElse (response_text response) FALLBACK_TEXT))
           (fun error =>
              perform (ConsoleError "Orion Cognitive Failure:" error) (Returned tt) ;;;
              throw error))%eff
      else throw (ErrorObject "Error" "API Key is missing.")
  | None => throw (ErrorObject "Error" "API Key is missing.")
  end.

End Gateway.

(** ** [src/App.tsx]: the component state and what changes it *)

Section App.
Context {number : Type} `{JsNumber number}.

(** The [useState] cells of [App]. *)
Record AppState : Type := mkApp {
  messages : list Message;
  input : string;
  orionState : OrionState.t;
  settings : OrionSettings;
  isSettingsOpen : bool;
  attachedImages : list string;
  deviceContext : DeviceContext number
}.

(** A state setter call. [AppendMessage m] is the functional update
    [setMessages(prev => [...prev, m])]; [ReplaceMessages l] is
    [setMessages(l)]. *)
Inductive Update : Type :=
| AppendMessage (m : Message)
| ReplaceMessages (l : list Message)
| SetInput (s : string)
| SetAttachedImages (l : list string)
| AppendAttachedImage (s : string)
| SetOrionState (s : OrionState.t)
| SetSettings (f : OrionSettings -> OrionSettings)
| SetIsSettingsOpen (b : bool)
| SetDeviceContext (f : DeviceContext number -> DeviceContext number).

Definition applyUpdate (a : AppState) (u : Update) : AppState :=
  match u with
  | AppendMessage m =>
      mkApp (messages a ++ [m])%list (input a) (orionState a) (settings a)
        (isSettingsOpen a) (attachedImages a) (deviceContext a)
  | ReplaceMessages l =>
      mkApp l (input a) (orionState a) (settings a)
        (isSettingsOpen a) (attachedImages a) (deviceContext a)
  | SetInput s =>
      mkApp (messages a) s (orionState a) (settings a)
        (isSettingsOpen a) (attachedImages a) (deviceContext a)
  | SetAttachedImages l =>
      mkApp (messages a) (input a) (orionState a) (settings a)
        (isSettingsOpen a) l (deviceContext a)
  | AppendAttachedImage s =>
      mkApp (messages a) (input a) (orionState a) (settings a)
        (isSettingsOpen a) (attachedImages a ++ [s])%list (deviceContext a)
  | SetOrionState s =>
      mkApp (messages a) (input a) s (settings a)
        (isSettingsOpen a) (attachedImages a) (deviceContext a)
  | SetSettings f =>
      mkApp (messages a) (input a) (orionState a) (f (settings a))
        (isSettingsOpen a) (attachedImages a) (deviceContext a)
  | SetIsSettingsOpen b =>
      mkApp (messages a) (input a) (orionState a) (settings a)
        b (attachedImages a) (deviceContext a)
  | SetDeviceContext f =>
      mkApp (messages a) (input a) (orionState a) (settings a)
        (isSettingsOpen a) (attachedImages a) (f (deviceContext a))
  end.

Definition applyUpdates (a : AppState) (us : list Update) : AppState :=
  fold_left applyUpdate us a.

(** The callbacks handed to [setTimeout]. *)
Inductive TimerTask : Type :=
| BootGreeting                          (* lines 40-47 *)
| ShowResponse (responseText : string)  (* lines 122-131 *)
| ResetError.                           (* line 135 *)

(** The arguments of an awaited [generateOrionResponse] call. *)
Record Call : Type := mkCall {
  call_history : list Message;
  call_prompt : string;
  call_images : list string;
  call_context : DeviceContext number;
  call_settings : OrionSettings
}.

(** One statement of a handler. *)
Inductive Command : Type :=
| Set_ (u : Update)
| Await (c : Call)
| SetTimeout (task : TimerTask) (delay : Z).

(** Line 95: the guard of [handleSendMessage], negated. *)
Definition sendAccepted (a : AppState) : bool :=
  negb ((negb (truthy (trim (input a))) && Nat.eqb (List.length (attachedImages a)) 0)
        || OrionState.eqb (orionState a) OrionState.Thinking).

(** Lines 97-103. *)
Definition newUserMessage (a : AppState) (now : Z) : Message :=
  mkMessage (Z_toString now) (input a) Sender.User now (Some (attachedImages a)).

(** Lines 95-117: [handleSendMessage] up to its [await]. *)
Definition handleSendMessage (a : AppState) (now : Z) : list Command :=
  if sendAccepted a then
    [ Set_ (AppendMessage (newUserMessage a now));
      Set_ (SetInput EmptyString);
      Set_ (SetAttachedImages []);
      Set_ (SetOrionState OrionState.Thinking);
      Await (mkCall (messages a) (input a) (attachedImages a)
               (deviceContext a) (settings a)) ]
  else [].

(** Lines 119-136: [handleSendMessage] after its [await]. *)
Definition afterAwait (result : outcome string) : list Command :=
  match result with
  | Returned responseText =>
      [ Set_ (SetOrionState OrionState.Responding);
        SetTimeout (ShowResponse responseText) 800 ]
  | Thrown _ =>
      [ Set_ (SetOrionState OrionState.Error);
        SetTimeout ResetError 3000 ]
  end.

(** The bodies of the timer callbacks, run at instant [now]. *)
Definition runTask (task : TimerTask) (now : Z) : list Update :=
  match task with
  | BootGreeting =>
      [ ReplaceMessages [mkMessage "init-1" INITIAL_GREETING Sender.Orion now None] ]
  | ShowResponse responseText =>
      [ AppendMessage (mkMessage (Z_toString (now + 1)) responseText Sender.Orion now None);
        SetOrionState OrionState.Idle ]
  | ResetError => [ SetOrionState OrionState.Idle ]
  end.

(** The running page: the component state, the clock, the timers still to
    fire (by deadline, first set first) and the awaited gateway calls. *)
Record World : Type := mkWorld {
  app : AppState;
  now : Z;
  timers : list (Z * TimerTask);
  awaiting : list Call;
  performed : list Effect
}.

Fixpoint insertTimer (deadline : Z) (task : TimerTask)
    (ts : list (Z * TimerTask)) : list (Z * TimerTask) :=
  match ts with
  | [] => [(deadline, task)]
  | (d, t) :: rest =>
      if (d <=? deadline)%Z then (d, t) :: insertTimer deadline task rest
      else (deadline, task) :: ts
  end.

Definition execCommand (w : World) (c : Command) : World :=
  match c with
  | Set_ u => mkWorld (applyUpdate (app w) u) (now w) (timers w) (awaiting w) (performed w)
  | Await call => mkWorld (app w) (now w) (timers w) (awaiting w ++ [call])%list (performed w)
  | SetTimeout task delay =>
      mkWorld (app w) (now w) (insertTimer (now w + delay) task (timers w))
        (awaiting w) (performed w)
  end.

Definition execCommands (w : World) (cs : list Command) : World :=
  fold_left execCommand cs w.

(** The timers whose deadline is at most [limit] fire in order, each at its
    deadline. *)
Fixpoint fireDue (limit : Z) (ts : list (Z * TimerTask)) (a : AppState)
    : AppState * list (Z * TimerTask) :=
  match ts with
  | [] => (a, [])
  | (d, task) :: rest =>
      if (d <=? limit)%Z then fireDue limit rest (applyUpdates a (runTask task d))
      else (a, ts)
  end.

Fixpoint removeNth {A : Type} (n : nat) (l : list A) : list A :=
  match n, l with
  | _, [] => []
  | O, _ :: rest => rest
  | S n', x :: rest => x :: removeNth n' rest
  end.

(** What the page does not decide. *)
Record Environment : Type := mkEnv {
  API_KEY : option string;          (* process.env.API_KEY *)
  navigator_onLine : bool;
  navigator_platform : string
}.

(** What can happen to the page. *)
Inductive Event : Type :=
| TypeInput (s : string)                 (* textarea onChange, line 278 *)
| FileLoaded (dataUrl : string)          (* reader.onloadend, line 151 *)
| ClearImages                            (* line 251 *)
| ChangeSettings (f : OrionSettings -> OrionSettings)  (* lines 346, 366 *)
| ToggleSettings (open : bool)           (* lines 206, 332 *)
| ContextChanged (f : DeviceContext number -> DeviceContext number) (* lines 51-69 *)
| Send                                   (* handleSendMessage, lines 142, 292 *)
| Settle (n : nat) (sdk : GoogleGenAI)   (* the [n]-th awaited call finishes *)
| Elapse (ms : N).                       (* time passes *)

(** One event. A send runs [handleSendMessage] up to its [await]; the
    awaited call is evaluated when it settles, against the service as it
    answers then. The code checks the key in the task of the send, lines
    45-47, so without a key the call fails before any other event; here
    other events may come first, which adds runs and takes none away. *)
Definition step (env : Environment) (w : World) (ev : Event) : World :=
  match ev with
  | TypeInput s => execCommand w (Set_ (SetInput s))
  | FileLoaded dataUrl => execCommand w (Set_ (AppendAttachedImage dataUrl))
  | ClearImages => execCommand w (Set_ (SetAttachedImages []))
  | ChangeSettings f => execCommand w (Set_ (SetSettings f))
  | ToggleSettings b => execCommand w (Set_ (SetIsSettingsOpen b))
  | ContextChanged f => execCommand w (Set_ (SetDeviceContext f))
  | Send => execCommands w (handleSendMessage (app w) (now w))
  | Settle n sdk =>
      match nth_error (awaiting w) n with
      | None => w
      | Some c =>
          let (result, effects) :=
            generateOrionResponse (API_KEY env) sdk (call_history c) (call_prompt c)
              (call_images c) (call_context c) (call_settings c) in
          execCommands
            (mkWorld (app w) (now w) (timers w) (removeNth n (awaiting w))
               (performed w ++ effects)%list)
            (afterAwait result)
      end
  | Elapse ms =>
      let limit := (now w + Z.of_N ms)%Z in
      let (a, ts) := fireDue limit (timers w) (app w) in
      mkWorld a limit ts (awaiting w) (performed w)
  end.

Definition run (env : Environment) (w : World) (events : list Event) : World :=
  fold_left (step env) events w.

(** Lines 16-47: the state at mount; the greeting is due one second later. *)
Definition initialWorld (env : Environment) (start : Z) (localeTime : string) : World :=
  mkWorld
    (mkApp [] EmptyString OrionState.Idle DEFAULT_SETTINGS false []
       (mkContext None false (navigator_onLine env) (navigator_platform env)
          localeTime None))
    start
    [((start + 1000)%Z, BootGreeting)]
    []
    [].

End App.

(** ** A number type for the examples

    Exact decimal rationals stand in for doubles where an example needs a
    concrete reading; every theorem below is stated for an arbitrary
    [JsNumber]. They round half up and print no exponent, which is not the
    arithmetic of doubles: only the examples use them, on readings where the
    two agree. *)

Definition roundHalfUp (q : Q) : Z := Qfloor (q + (1 # 2))%Q.

Definition Q_percent (q : Q) : string :=
  if Qle_bool 0%Q q then Z_toString (roundHalfUp (q * 100)%Q)
  else "-" ++ Z_toString (roundHalfUp (- q * 100)%Q).

Fixpoint fractionDigits (fuel : nat) (num den : Z) : string :=
  match fuel with
  | O => EmptyString
  | S fuel' =>
      if (num =? 0)%Z then EmptyString
      else Z_toString (num * 10 / den) ++ fractionDigits fuel' (num * 10 mod den) den
  end.

Definition Q_toString (q : Q) : string :=
  let n := Z.abs (Qnum q) in
  let d := Zpos (Qden q) in
  (if (Qnum q <? 0)%Z then "-" else EmptyString) ++
  Z_toString (n / d) ++
  (if (n mod d =? 0)%Z then EmptyString else "." ++ fractionDigits 17 (n mod d) d).

#[export] Instance JsNumber_Q : JsNumber Q := {|
  percent := Q_percent;
  numberToString := Q_toString
|}.

(** ** Readings of the sources used to state the properties *)

(** The line one message contributes to the conversation context. *)
Definition historyLine (msg : Message) : string :=
  senderLabel msg ++ ": " ++ text msg ++ nl.

Definition renderLines (msgs : list Message) : string :=
  fold_right (fun msg rest => historyLine msg ++ rest) EmptyString msgs.

(** What [x.split(',')[1]] and [x.split(';')[0].split(':')[1]] give. *)
Definition rawBase64Of (base64 : string) : option string :=
  nth_error (split "," base64) 1.

Definition mimeTypeOf (base64 : string) : option string :=
  match nth_error (split ";" base64) 0 with
  | Some head => nth_error (split ":" head) 1
  | None => None
  end.

(** The part one attachment contributes. *)
Definition imagePart (base64 : string) : Part :=
  InlineDataPart (orElse (mimeTypeOf base64) "image/png") (rawBase64Of base64).

(** The characters of [s] before the first [sep]. *)
Fixpoint beforeFirst (sep : ascii) (s : string) : string :=
  match s with
  | EmptyString => EmptyString
  | String c s' => if Ascii.eqb c sep then EmptyString else String c (beforeFirst sep s')
  end.

(** The request [generateOrionResponse] hands to the service. *)
Definition requestOf {number : Type} `{JsNumber number}
    (history : list Message) (currentPrompt : string) (images : list string)
    (context : DeviceContext number) (settings : OrionSettings)
    : GenerateContentRequest :=
  mkRequest "gemini-2.5-flash-preview"
    (TextPart (fullPrompt history currentPrompt) :: map imagePart images)
    (getSystemInstruction context settings) (7 # 10)%Q.

(** No occurrence of [p] starts inside the literal [l], whatever follows. *)
Fixpoint headClear (p l : string) : bool :=
  match l with
  | EmptyString => true
  | String _ l' => negb (startsWith l p) && negb (startsWith p l) && headClear p l'
  end.

Fixpoint lastChar (s : string) : option ascii :=
  match s with
  | EmptyString => None
  | String c EmptyString => Some c
  | String _ s' => lastChar s'
  end.

Definition lastCharIs (s : string) (c : ascii) : bool :=
  match lastChar s with
  | Some x => Ascii.eqb x c
  | None => false
  end.

Definition allPersonalities : list Personality := [professional; friendly; direct].

Definition Personality_eqb (a b : Personality) : bool :=
  match a, b with
  | professional, professional | friendly, friendly | direct, direct => true
  | _, _ => false
  end.

Section ContextReadings.
Context {number : Type} `{JsNumber number}.

Definition withGeolocation (context : DeviceContext number)
    (g : option (Geolocation number)) : DeviceContext number :=
  mkContext (batteryLevel context) (isCharging context) (isOnline context)
    (platform context) (currentTime context) g.

Definition withBatteryLevel (context : DeviceContext number)
    (level : option number) : DeviceContext number :=
  mkContext level (isCharging context) (isOnline context)
    (platform context) (currentTime context) (geolocation context).

(** The texts the device context brings into the instruction. *)
Definition fieldTexts (context : DeviceContext number) : list string :=
  ([currentTime context; platform context]
   ++ match batteryLevel context with
      | Some level => [percent level]
      | None => []
      end
   ++ match geolocation context with
      | Some g => [numberToString (lat g); numberToString (lng g)]
      | None => []
      end)%list.

(** No text of the device context holds a tone description itself. *)
Definition quotesNoTone (context : DeviceContext number) : bool :=
  forallb
    (fun field => forallb (fun q => negb (occurs (personalityTraits q) field))
                    allPersonalities)
    (fieldTexts context).

End ContextReadings.

(** The specification's wording of the text part: lines labelled [User] and
    [Assistant], then the new user text as a [User] line. *)
Definition specLabel (msg : Message) : string :=
  match sender msg with
  | Sender.User => "User"
  | Sender.Orion => "Assistant"
  end.

Definition specTextPart (history : list Message) (newText : string) : string :=
  fold_right (fun msg rest => specLabel msg ++ ": " ++ text msg ++ nl ++ rest)
    EmptyString (sliceLast 6 history)
  ++ "User: " ++ newText.

(** The states the handlers ever set: [Listening] is declared and never
    entered. *)
Definition settled (s : OrionState.t) : Prop := s <> OrionState.Listening.

(** The greeting of the mount effect is still to come. *)
Definition isGreeting (task : TimerTask) : bool :=
  match task with
  | BootGreeting => true
  | _ => false
  end.

Definition greetingPending {number : Type} (w : @World number) : bool :=
  existsb (fun timer => isGreeting (snd timer)) (timers w).

(** Two texts that are the same but for one stretch: [l] in the first where
    the second has [r]. *)
Definition sameExcept (x y l r : string) : Prop :=
  exists pre post, x = pre ++ l ++ post /\ y = pre ++ r ++ post.

(** ** Inputs of the examples *)

Definition exampleContext : DeviceContext Q :=
  mkContext (Some (42 # 100)%Q) false true "Win32" "11/2/2026, 1:33:00 PM"
    (Some (mkGeolocation (377749 # 10000)%Q (-1224194 # 10000)%Q)).

Definition exampleEnv : Environment := mkEnv (Some "key") true "Win32".

(** A service that answers [All systems nominal.] and one that is down. *)
Definition answeringSdk : GoogleGenAI :=
  fun _ _ => Returned (mkResponse (Some "All systems nominal.")).

Definition failingSdk : GoogleGenAI :=
  fun _ _ => Thrown (ErrorObject "Error" "503 Service Unavailable").

(** The page one second after mount, the greeting shown, [status?] typed. *)
Definition readyWorld : @World Q :=
  run exampleEnv (initialWorld exampleEnv 0 "11/2/2026, 1:33:00 PM")
    [Elapse 1000; TypeInput "status?"].

(** The device context at mount: no battery reading, no location. *)
Definition bareContext : DeviceContext Q :=
  mkContext None false true "Win32" "11/2/2026, 1:33:00 PM" None.

(** ** [src/App.tsx]: the handlers and observers behind the events *)

Section Page.
Context {number : Type} `{JsNumber number}.

(** Lines 139-144: [handleKeyPress]. Enter without Shift calls
    [handleSendMessage]; any other key is left to the text area. *)
Definition handleKeyPress (key : string) (shiftKey : bool) : list (@Event number) :=
  if String.eqb key "Enter" && negb shiftKey then [Send] else [].

(** Lines 146-155: [handleFileUpload]. The handler sets no state: it starts
    the read of [files[0]], if there is one, and returns. The result is the
    reads it starts; a file is given by the data URL its read ends with. The
    image is attached by [reader.onloadend], a task of its own, whenever the
    read has ended. A read that fails ends with [null], which is no string:
    the reads of the model are those that succeed. *)
Definition handleFileUpload (files : list string) : list string :=
  match files with
  | file :: _ => [file]
  | [] => []
  end.

(** Lines 49-75: what the observers of the mount effect report. *)
Inductive Observation : Type :=
| ClockTick (localeTime : string)                       (* line 51 *)
| WentOnline                                            (* line 55 *)
| WentOffline                                           (* line 56 *)
| BatteryChanged (level : number) (charging : bool).    (* lines 64-70 *)

(** The update [prev => ({ ...prev, ... })] of each observer. *)
Definition observe (o : Observation) (prev : DeviceContext number)
    : DeviceContext number :=
  match o with
  | ClockTick localeTime =>
      mkContext (batteryLevel prev) (isCharging prev) (isOnline prev)
        (platform prev) localeTime (geolocation prev)
  | WentOnline =>
      mkContext (batteryLevel prev) (isCharging prev) true
        (platform prev) (currentTime prev) (geolocation prev)
  | WentOffline =>
      mkContext (batteryLevel prev) (isCharging prev) false
        (platform prev) (currentTime prev) (geolocation prev)
  | BatteryChanged level charging =>
      mkContext (Some level) charging (isOnline prev)
        (platform prev) (currentTime prev) (geolocation prev)
  end.

(** What the user and the platform do to the page, by the handler that
    answers. *)
Inductive PageEvent : Type :=
| Typed (value : string)                    (* line 278 *)
| KeyDown (key : string) (shiftKey : bool)  (* line 279 *)
| SendClicked                               (* line 292 *)
| FilesChosen (files : list string)         (* line 272 *)
| ReadEnded (dataUrl : string)              (* reader.onloadend, lines 150-152 *)
| RemoveClicked (index : nat)               (* line 251 *)
| SettingsOpened                            (* line 206 *)
| SettingsClosed                            (* line 332 *)
| PersonalityChosen (p : Personality)       (* line 346 *)
| IntensityChosen (v : VisualIntensity)     (* line 366 *)
| Observed (o : Observation)
| Settled (n : nat) (sdk : GoogleGenAI)
| Elapsed (ms : N).

(** The events a page event stands for. Choosing files changes nothing by
    itself; the image arrives with the end of its read. The remove button of
    line 250 only exists for an attached image, and it clears all of them. *)
Definition pageEvents (w : @World number) (pe : PageEvent) : list (@Event number) :=
  match pe with
  | Typed value => [TypeInput value]
  | KeyDown key shiftKey => handleKeyPress key shiftKey
  | SendClicked => [Send]
  | FilesChosen files => []
  | ReadEnded dataUrl => [FileLoaded dataUrl]
  | RemoveClicked index =>
      if Nat.ltb index (List.length (attachedImages (app w))) then [ClearImages] else []
  | SettingsOpened => [ToggleSettings true]
  | SettingsClosed => [ToggleSettings false]
  | PersonalityChosen p =>
      [ChangeSettings
         (fun prev => mkSettings p (visualIntensity prev) (voiceEnabled prev))]
  | IntensityChosen v =>
      [ChangeSettings
         (fun prev => mkSettings (personality prev) v (voiceEnabled prev))]
  | Observed o => [ContextChanged (observe o)]
  | Settled n sdk => [Settle n sdk]
  | Elapsed ms => [Elapse ms]
  end.

Definition pageStep (env : Environment) (w : @World number) (pe : PageEvent)
    : @World number :=
  run env w (pageEvents w pe).

Definition pageRun (env : Environment) (w : @World number)
    (pes : list PageEvent) : @World number :=
  fold_left (pageStep env) pes w.

(** The file input and its readers. A page event of the file input is a
    selection or the end of a read. *)
Definition isUpload (pe : PageEvent) : bool :=
  match pe with
  | FilesChosen _ | ReadEnded _ => true
  | _ => false
  end.

(** The reads started by the selections among page events, first started
    first. *)
Definition startedReads (pes : list PageEvent) : list string :=
  flat_map (fun pe => match pe with
                      | FilesChosen files => handleFileUpload files
                      | _ => []
                      end) pes.

(** The reads that ended among page events, first ended first. *)
Definition endedReads (pes : list PageEvent) : list string :=
  flat_map (fun pe => match pe with
                      | ReadEnded dataUrl => [dataUrl]
                      | _ => []
                      end) pes.

(** One read taken out of the reads in flight; [None] when no such read is
    in flight. *)
Fixpoint endRead (dataUrl : string) (reading : list string) : option (list string) :=
  match reading with
  | [] => None
  | r :: rest =>
      if String.eqb dataUrl r then Some rest
      else option_map (cons r) (endRead dataUrl rest)
  end.

(** The reads in flight after page events, from those in flight before: a
    selection starts the read of [handleFileUpload], and any read in flight
    may be the next to end. [None] when a read ends that was never started,
    which no browser does. *)
Fixpoint readsInFlight (reading : list string) (pes : list PageEvent)
    : option (list string) :=
  match pes with
  | [] => Some reading
  | FilesChosen files :: rest =>
      readsInFlight (reading ++ handleFileUpload files)%list rest
  | ReadEnded dataUrl :: rest =>
      match endRead dataUrl reading with
      | Some reading' => readsInFlight reading' rest
      | None => None
      end
  | _ :: rest => readsInFlight reading rest
  end.

(** An event that only edits what the user is preparing, the settings or
    the device context. *)
Definition isEdit (ev : @Event number) : bool :=
  match ev with
  | TypeInput _ | FileLoaded _ | ClearImages | ChangeSettings _
  | ToggleSettings _ | ContextChanged _ => true
  | Send | Settle _ _ | Elapse _ => false
  end.

(** An event that neither sends nor settles a call: an edit, or time
    passing. *)
Definition isQuiet (ev : @Event number) : bool :=
  match ev with
  | Elapse _ => true
  | _ => isEdit ev
  end.

(** What the callback of a timer appends to the transcript when it runs at
    [instant]: lines 123-129 for the display timer, nothing for the reset. *)
Definition shownBy (task : TimerTask) (instant : Z) : list Message :=
  match task with
  | ShowResponse responseText =>
      [mkMessage (Z_toString (instant + 1)) responseText Sender.Orion instant None]
  | _ => []
  end.

(** A timer whose callback sets the session state to Idle. *)
Definition setsIdle (timer : Z * TimerTask) : bool := negb (isGreeting (snd timer)).

(** The request of an awaited call. *)
Definition callRequest (c : @Call number) : GenerateContentRequest :=
  requestOf (call_history c) (call_prompt c) (call_images c)
    (call_context c) (call_settings c).

(** The request of the send a state would accept. *)
Definition pendingRequest (a : @AppState number) : GenerateContentRequest :=
  requestOf (messages a) (input a) (attachedImages a) (deviceContext a) (settings a).

(** The message of the mount effect, lines 41-46. *)
Definition isGreetingMessage (m : Message) : Prop :=
  id m = "init-1" /\ text m = INITIAL_GREETING /\ sender m = Sender.Orion
  /\ attachments m = None.

End Page.

(** ** [src/components/SystemHUD.tsx] *)

(** Line 21: the clock of the HUD, [context.currentTime.split(' ')[1]];
    [undefined] renders nothing. *)
Definition hudClock {number : Type} (context : DeviceContext number) : option string :=
  nth_error (split " " (currentTime context)) 1.

(** Every character of [s] is white space. *)
Fixpoint allWhiteSpace (s : string) : bool :=
  match s with
  | EmptyString => true
  | String c s' => isWhiteSpace c && allWhiteSpace s'
  end.

(** ** What every reachable state satisfies *)

Section Invariants.
Context {number : Type} `{JsNumber number}.

(** Every state other than Idle has its way out pending: a call while
    Thinking, a timer that sets Idle while Responding or in Error; and no
    timer is due later than 3000 ms from now. *)
Definition exitsPending (w : @World number) : Prop :=
  (orionState (app w) = OrionState.Thinking -> awaiting w <> [])
  /\ (orionState (app w) = OrionState.Responding
      \/ orionState (app w) = OrionState.Error ->
      existsb setsIdle (timers w) = true)
  /\ Forall (fun timer => (fst timer <= now w + 3000)%Z) (timers w).

(** The timers wait in the order of their deadlines, all of them ahead. *)
Definition timersAhead (w : @World number) : Prop :=
  StronglySorted (fun earlier later => (fst earlier <= fst later)%Z) (timers w)
  /\ Forall (fun timer => (now w < fst timer)%Z) (timers w).

(** The greeting is due 1000 ms after the mount at [start]; until then it
    is pending, from then on the transcript starts with it. *)
Definition greetingShown (start : Z) (w : @World number) : Prop :=
  Forall (fun timer => isGreeting (snd timer) = true -> fst timer = (start + 1000)%Z)
    (timers w)
  /\ ((greetingPending w = true /\ (now w < start + 1000)%Z)
      \/ (greetingPending w = false /\ (start + 1000 <= now w)%Z
          /\ exists greeting later,
               messages (app w) = greeting :: later
               /\ isGreetingMessage greeting)).

(** No message of Orion, shown or still to be shown, has an empty text. *)
Definition neverSilent (w : @World number) : Prop :=
  Forall (fun m => sender m = Sender.Orion -> truthy (text m) = true)
    (messages (app w))
  /\ Forall (fun timer =>
               match snd timer with
               | ShowResponse responseText => truthy responseText = true
               | _ => True
               end)
       (timers w).

(** No location is known, awaited with a call, or was ever sent. *)
Definition noLocation (env : Environment) (w : @World number) : Prop :=
  (geolocation (deviceContext (app w)) = None
   /\ platform (deviceContext (app w)) = navigator_platform env)
  /\ Forall (fun c => geolocation (call_context c) = None
                      /\ platform (call_context c) = navigator_platform env)
       (awaiting w)
  /\ Forall (fun e =>
               match e with
               | GenerateContent request =>
                   exists context settings,
                     geolocation context = None
                     /\ platform context = navigator_platform env
                     /\ systemInstruction request
                        = getSystemInstruction context settings
               | ConsoleError _ _ => True
               end)
       (performed w).

End Invariants.

(** * Properties *)

(** ** Strings and lists *)

Lemma append_nil_r (s : string) : s ++ EmptyString = s.
Proof. induction s as [|c s IH]; simpl; [reflexivity | now rewrite IH]. Qed.

Lemma append_assoc (a b c : string) : (a ++ b) ++ c = a ++ (b ++ c).
Proof. induction a as [|x a IH]; simpl; [reflexivity | now rewrite IH]. Qed.

Lemma length_append (a b : string) :
  String.length (a ++ b) = String.length a + String.length b.
Proof. induction a as [|x a IH]; simpl; [reflexivity | now rewrite IH]. Qed.

Lemma has_char_append (c : ascii) (a b : string) :
  has_char c (a ++ b) = has_char c a || has_char c b.
Proof.
  induction a as [|x a IH]; simpl; [reflexivity|].
  now rewrite IH, orb_assoc.
Qed.

Lemma substring_all (s : string) : substring 0 (String.length s) s = s.
Proof. induction s as [|c s IH]; simpl; [reflexivity | now rewrite IH]. Qed.

Lemma substring_skip (a b : string) (m : nat) :
  substring (String.length a) m (a ++ b) = substring 0 m b.
Proof. induction a as [|c a IH]; simpl; [reflexivity | exact IH]. Qed.

Lemma endsWith_append (a p : string) : endsWith (a ++ p) p = true.
Proof.
  unfold endsWith.
  rewrite length_append.
  replace (String.length a + String.length p - String.length p)
    with (String.length a) by lia.
  rewrite substring_skip, substring_all, String.eqb_refl.
  apply Nat.leb_le; lia.
Qed.

(** [split] never gives the empty array, so [x.split(s)[0]] is a string. *)
Lemma split_head (sep : ascii) (s : string) :
  exists rest, split sep s = beforeFirst sep s :: rest.
Proof.
  induction s as [|c s [rest IH]]; simpl.
  - now exists [].
  - destruct (Ascii.eqb c sep).
    + now exists (split sep s).
    + rewrite IH. now exists rest.
Qed.

Lemma split_without (sep : ascii) (s : string) :
  has_char sep s = false -> split sep s = [s].
Proof.
  induction s as [|c s IH]; simpl; [reflexivity|].
  intros Hno. apply orb_false_iff in Hno as [Hc Hs].
  now rewrite Hc, (IH Hs).
Qed.

Lemma split_at_first (sep : ascii) (a b : string) :
  has_char sep a = false ->
  split sep (a ++ String sep b) = a :: split sep b.
Proof.
  induction a as [|c a IH]; simpl.
  - intros _. now rewrite Ascii.eqb_refl.
  - intros Hno. apply orb_false_iff in Hno as [Hc Ha].
    now rewrite Hc, (IH Ha).
Qed.

Lemma beforeFirst_without (sep : ascii) (s : string) :
  has_char sep s = false -> beforeFirst sep s = s.
Proof.
  induction s as [|c s IH]; simpl; [reflexivity|].
  intros Hno. apply orb_false_iff in Hno as [Hc Hs].
  now rewrite Hc, (IH Hs).
Qed.

Lemma sliceLast_length {A : Type} (n : nat) (l : list A) :
  List.length (sliceLast n l) <= n.
Proof. unfold sliceLast. rewrite length_skipn. lia. Qed.

Lemma sliceLast_suffix {A : Type} (n : nat) (l : list A) :
  l = (firstn (List.length l - n) l ++ sliceLast n l)%list.
Proof. unfold sliceLast. now rewrite firstn_skipn. Qed.

Lemma sliceLast_app {A : Type} (n : nat) (older recent : list A) :
  n <= List.length recent ->
  sliceLast n (older ++ recent)%list = sliceLast n recent.
Proof.
  intros Hlen. unfold sliceLast.
  rewrite length_app, skipn_app.
  replace (List.length older + List.length recent - n - List.length older)
    with (List.length recent - n) by lia.
  rewrite skipn_all2 by lia.
  reflexivity.
Qed.

(** ** The prompt assembler *)

Lemma fold_lines (msgs : list Message) (acc : string) :
  fold_left (fun acc msg => acc ++ (senderLabel msg ++ ": " ++ text msg ++ nl)) msgs acc
  = acc ++ renderLines msgs.
Proof.
  revert acc. induction msgs as [|m msgs IH]; intros acc; simpl.
  - now rewrite append_nil_r.
  - rewrite IH, append_assoc. reflexivity.
Qed.

Lemma conversationContext_lines (history : list Message) :
  conversationContext history = renderLines (recentHistory history).
Proof. unfold conversationContext. now rewrite fold_lines. Qed.

Lemma pushImage_total (acc : list Part) (base64 : string) :
  pushImage acc base64 = ret (acc ++ [imagePart base64])%list.
Proof.
  unfold pushImage, imagePart, mimeTypeOf, rawBase64Of.
  destruct (split_head ";" base64) as [rest ->]. simpl.
  reflexivity.
Qed.

Lemma forEach_pushImage (images : list string) (acc : list Part) :
  forEach images pushImage acc = ret (acc ++ map imagePart images)%list.
Proof.
  revert acc. induction images as [|img images IH]; intros acc; simpl.
  - now rewrite app_nil_r.
  - rewrite pushImage_total. unfold ret at 1. simpl.
    rewrite IH. unfold ret. simpl. now rewrite <- app_assoc.
Qed.

Lemma buildParts_total (history : list Message) (currentPrompt : string)
    (images : list string) :
  buildParts history currentPrompt images
  = ret (TextPart (fullPrompt history currentPrompt) :: map imagePart images).
Proof. unfold buildParts. now rewrite forEach_pushImage. Qed.

(** C3. For every history the assembler renders at most the last six
    transcript entries: the rendered context is made of the lines of
    [recentHistory], which are at most six and are the tail of the history,
    and whatever precedes the last six entries changes neither the text part
    nor any other part of the request. *)
Theorem recent_history_window
    (history : list Message) (currentPrompt : string) (images : list string) :
  List.length (recentHistory history) <= 6
  /\ (exists older, history = (older ++ recentHistory history)%list)
  /\ conversationContext history = renderLines (recentHistory history)
  /\ (forall older, 6 <= List.length history ->
        fullPrompt (older ++ history) currentPrompt = fullPrompt history currentPrompt
        /\ buildParts (older ++ history) currentPrompt images
           = buildParts history currentPrompt images).
Proof.
  repeat split.
  - apply sliceLast_length.
  - eexists. apply sliceLast_suffix.
  - apply conversationContext_lines.
  - unfold fullPrompt, conversationContext, recentHistory.
    now rewrite sliceLast_app.
  - unfold buildParts, fullPrompt, conversationContext, recentHistory.
    now rewrite sliceLast_app.
Qed.

(** C4, as stated, fails: a message of the assistant is rendered with the
    label [Orion], so the text part of a history holding one such message is
    not the specification's [Assistant] line and never mentions that label. *)
Lemma text_part_label_counterexample :
  let history := [mkMessage "1" "hi" Sender.Orion 0 None] in
  buildParts history "status?" []
  = ret [TextPart ("Orion: hi" ++ nl ++ nl ++ "User: status?")]
  /\ specTextPart history "status?" = "Assistant: hi" ++ nl ++ "User: status?"
  /\ occurs "Assistant" (fullPrompt history "status?") = false.
Proof. repeat split. Qed.

(** C4, amended. The first part of the request is the text part; it is the
    rendered recent history, one line [label: text] per entry where the label
    is [User] for the user's messages and [Orion] for the assistant's, then a
    line break, then [User: ] and the new user text. With no history and the
    new text [status?] it is a line break and [User: status?]. *)
Theorem text_part_layout
    (history : list Message) (currentPrompt : string) (images : list string) :
  (exists imageParts,
     buildParts history currentPrompt images
     = ret (TextPart (fullPrompt history currentPrompt) :: imageParts))
  /\ fullPrompt history currentPrompt
     = renderLines (recentHistory history) ++ nl ++ "User: " ++ currentPrompt
  /\ (forall msg,
        historyLine msg
        = match sender msg with
          | Sender.User => "User"
          | Sender.Orion => "Orion"
          end ++ ": " ++ text msg ++ nl)
  /\ endsWith (fullPrompt history currentPrompt) ("User: " ++ currentPrompt) = true
  /\ fullPrompt [] "status?" = nl ++ "User: status?".
Proof.
  repeat split.
  - eexists. apply buildParts_total.
  - unfold fullPrompt. now rewrite conversationContext_lines.
  - intros msg. unfold historyLine, senderLabel. now destruct (sender msg).
  - unfold fullPrompt. rewrite <- (append_assoc _ nl). apply endsWith_append.
Qed.

Lemma beforeFirst_append (sep : ascii) (a b : string) :
  beforeFirst sep (a ++ String sep b) = beforeFirst sep a.
Proof.
  induction a as [|c a IH]; simpl.
  - now rewrite Ascii.eqb_refl.
  - destruct (Ascii.eqb c sep); [reflexivity | now rewrite IH].
Qed.

Lemma mimeTypeOf_head (base64 : string) :
  mimeTypeOf base64 = nth_error (split ":" (beforeFirst ";" base64)) 1.
Proof.
  unfold mimeTypeOf. now destruct (split_head ";" base64) as [rest ->].
Qed.

Lemma imagePart_of_form (prefix payload : string) :
  has_char "," prefix = false -> has_char "," payload = false ->
  imagePart (prefix ++ ";base64," ++ payload)
  = InlineDataPart
      (orElse (nth_error (split ":" (beforeFirst ";" prefix)) 1) "image/png")
      (Some payload).
Proof.
  intros Hprefix Hpayload. unfold imagePart. f_equal.
  - rewrite mimeTypeOf_head.
    change (prefix ++ ";base64," ++ payload)
      with (prefix ++ String ";" ("base64," ++ payload)).
    now rewrite beforeFirst_append.
  - unfold rawBase64Of.
    replace (prefix ++ ";base64," ++ payload)
      with ((prefix ++ ";base64") ++ String "," payload)
      by (now rewrite append_assoc).
    rewrite split_at_first, split_without by
      (try assumption; rewrite has_char_append, Hprefix; reflexivity).
    reflexivity.
Qed.

(** C5. The image parts follow the text part in the order of the
    attachments, one per attachment. For an attachment
    [prefix;base64,payload] in which the comma only stands where the form
    puts it, the data of the part is the payload; its MIME type is what
    stands between the colon of the prefix and the first semicolon, as for
    [data:image/jpeg;base64,QUJD], and is [image/png] when there is no colon
    there or nothing after it. *)
Theorem image_parts_follow_attachments
    (history : list Message) (currentPrompt : string) (images : list string) :
  buildParts history currentPrompt images
  = ret (TextPart (fullPrompt history currentPrompt) :: map imagePart images)
  /\ (forall prefix payload,
        has_char "," prefix = false -> has_char "," payload = false ->
        exists mimeType,
          imagePart (prefix ++ ";base64," ++ payload)
          = InlineDataPart mimeType (Some payload))
  /\ (forall scheme mime payload,
        has_char ":" scheme = false -> has_char ";" scheme = false ->
        has_char "," scheme = false ->
        has_char ":" mime = false -> has_char ";" mime = false ->
        has_char "," mime = false -> mime <> EmptyString ->
        has_char "," payload = false ->
        imagePart (scheme ++ ":" ++ mime ++ ";base64," ++ payload)
        = InlineDataPart mime (Some payload))
  /\ imagePart "data:image/jpeg;base64,QUJD" = InlineDataPart "image/jpeg" (Some "QUJD")
  /\ (forall prefix payload,
        has_char "," prefix = false -> has_char "," payload = false ->
        has_char ":" (beforeFirst ";" prefix) = false ->
        imagePart (prefix ++ ";base64," ++ payload)
        = InlineDataPart "image/png" (Some payload))
  /\ (forall base64,
        mimeTypeOf base64 = None \/ mimeTypeOf base64 = Some EmptyString ->
        imagePart base64 = InlineDataPart "image/png" (rawBase64Of base64)).
Proof.
  split; [apply buildParts_total|].
  split; [|split; [|split; [|split]]].
  - intros prefix payload Hprefix Hpayload.
    eexists. now apply imagePart_of_form.
  - intros scheme mime payload Hs1 Hs2 Hs3 Hm1 Hm2 Hm3 Hne Hpayload.
    replace (scheme ++ ":" ++ mime ++ ";base64," ++ payload)
      with ((scheme ++ ":" ++ mime) ++ ";base64," ++ payload)
      by (now rewrite !append_assoc).
    rewrite imagePart_of_form by
      (try assumption; rewrite !has_char_append, Hs3, Hm3; reflexivity).
    rewrite beforeFirst_without by
      (rewrite !has_char_append, Hs2, Hm2; reflexivity).
    change (scheme ++ ":" ++ mime) with (scheme ++ String ":" mime).
    rewrite split_at_first, split_without by assumption. simpl.
    destruct mime; [congruence | reflexivity].
  - reflexivity.
  - intros prefix payload Hprefix Hpayload Hcolon.
    rewrite imagePart_of_form by assumption.
    now rewrite split_without.
  - intros base64 [Hm | Hm]; unfold imagePart; now rewrite Hm.
Qed.

(** C10. Building the image parts never throws, whatever the attachment
    strings are: the parts are the text part and one inline-data part per
    attachment; an attachment without a comma gives a part with no data, and
    one with no colon before its first semicolon gives [image/png]. *)
Theorem image_parts_never_throw
    (history : list Message) (currentPrompt : string) (images : list string) :
  exists imageParts,
    buildParts history currentPrompt images
    = (Returned (TextPart (fullPrompt history currentPrompt) :: imageParts), [])
    /\ List.length imageParts = List.length images
    /\ forall i base64, nth_error images i = Some base64 ->
         exists mimeType data,
           nth_error imageParts i = Some (InlineDataPart mimeType data)
           /\ (has_char "," base64 = false -> data = None)
           /\ (has_char ":" (beforeFirst ";" base64) = false -> mimeType = "image/png").
Proof.
  exists (map imagePart images).
  split; [apply buildParts_total|].
  split; [apply length_map|].
  intros i base64 Hi.
  exists (orElse (mimeTypeOf base64) "image/png"), (rawBase64Of base64).
  split; [|split].
  - rewrite nth_error_map, Hi. reflexivity.
  - intros Hno. unfold rawBase64Of. now rewrite split_without.
  - intros Hno. unfold mimeTypeOf.
    destruct (split_head ";" base64) as [rest ->]. simpl.
    now rewrite split_without.
Qed.

(** ** The response gateway *)

Section GatewayProperties.
Context {number : Type} `{JsNumber number}.

Lemma buildRequest_total (history : list Message) (currentPrompt : string)
    (images : list string) (context : DeviceContext number)
    (settings : OrionSettings) :
  buildRequest history currentPrompt images context settings
  = ret (requestOf history currentPrompt images context settings).
Proof. unfold buildRequest. now rewrite buildParts_total. Qed.

Lemma generateOrionResponse_with_key (key : string) (sdk : GoogleGenAI)
    (history : list Message) (currentPrompt : string) (images : list string)
    (context : DeviceContext number) (settings : OrionSettings) :
  truthy key = true ->
  let request := requestOf history currentPrompt images context settings in
  generateOrionResponse (Some key) sdk history currentPrompt images context settings
  = match sdk key request with
    | Returned response =>
        (Returned (orElse (response_text response) FALLBACK_TEXT),
         [GenerateContent request])
    | Thrown error =>
        (Thrown error,
         [GenerateContent request; ConsoleError "Orion Cognitive Failure:" error])
    end.
Proof.
  intros Hkey request. unfold generateOrionResponse.
  rewrite Hkey, buildRequest_total. fold request.
  unfold ret, bind, tryCatch, perform, throw.
  destruct (sdk key request); reflexivity.
Qed.

(** C7. Without a configured credential (no key, or the empty key) the
    gateway throws and performs no external call. With a credential, when the
    service answers with an absent or empty text, the gateway returns the
    fallback sentence, having made exactly the one call. *)
Theorem gateway_missing_key_and_empty_text
    (API_KEY : option string) (sdk : GoogleGenAI)
    (history : list Message) (currentPrompt : string) (images : list string)
    (context : DeviceContext number) (settings : OrionSettings) :
  (hasApiKey API_KEY = false ->
     generateOrionResponse API_KEY sdk history currentPrompt images context settings
     = (Thrown (ErrorObject "Error" "API Key is missing."), []))
  /\ (forall key response,
        API_KEY = Some key -> truthy key = true ->
        sdk key (requestOf history currentPrompt images context settings)
        = Returned response ->
        response_text response = None \/ response_text response = Some EmptyString ->
        generateOrionResponse API_KEY sdk history currentPrompt images context settings
        = (Returned "Systems unresponsive. Please try again.",
           [GenerateContent (requestOf history currentPrompt images context settings)])).
Proof.
  split.
  - destruct API_KEY as [key|]; simpl; intros Hkey; [|reflexivity].
    unfold generateOrionResponse. now rewrite Hkey.
  - intros key response -> Hkey Hsdk Hempty.
    rewrite generateOrionResponse_with_key by assumption. simpl.
    rewrite Hsdk.
    destruct Hempty as [-> | ->]; reflexivity.
Qed.

End GatewayProperties.

(** ** Occurrences in a text built from literals and fields *)

Lemma startsWith_refl_append (p b : string) : startsWith (p ++ b) p = true.
Proof.
  induction p as [|c p IH]; simpl; [reflexivity|].
  now rewrite Ascii.eqb_refl.
Qed.

Lemma occurs_here (p b : string) : occurs p (p ++ b) = true.
Proof.
  pose proof (startsWith_refl_append p b) as Hp.
  destruct (p ++ b); cbn [occurs]; now rewrite Hp.
Qed.

Lemma occurs_later (p a b : string) : occurs p b = true -> occurs p (a ++ b) = true.
Proof.
  intros Hb. induction a as [|c a IH]; simpl; [exact Hb|].
  rewrite IH. apply orb_true_r.
Qed.

Lemma startsWith_barrier (c : ascii) (p a b : string) :
  has_char c p = false -> startsWith (a ++ String c b) p = startsWith a p.
Proof.
  revert p. induction a as [|y a IH]; intros [|x p] Hno; simpl in *; try reflexivity.
  - apply orb_false_iff in Hno as [Hx _]. now rewrite Hx.
  - apply orb_false_iff in Hno as [_ Hp]. now rewrite (IH p Hp).
Qed.

(** A character that is not in [p] separates the occurrences of [p]. *)
Lemma occurs_barrier (c : ascii) (p a b : string) :
  has_char c p = false ->
  occurs p (a ++ String c b) = occurs p a || occurs p b.
Proof.
  intros Hno. induction a as [|y a IH].
  - change (EmptyString ++ String c b) with (String c b).
    cbn [occurs].
    rewrite <- (startsWith_barrier c p EmptyString b Hno).
    now rewrite orb_false_r.
  - change (String y a ++ String c b) with (String y (a ++ String c b)).
    cbn [occurs].
    change (String y (a ++ String c b)) with (String y a ++ String c b).
    rewrite (startsWith_barrier c p (String y a) b Hno), IH.
    now rewrite orb_assoc.
Qed.

Lemma occurs_zones (c : ascii) (p a b : string) :
  has_char c p = false -> occurs p a = false -> occurs p b = false ->
  occurs p (a ++ String c b) = false.
Proof. intros Hno Ha Hb. now rewrite occurs_barrier, Ha, Hb. Qed.

Lemma startsWith_append_cases (p u x : string) :
  startsWith (u ++ x) p = true -> startsWith u p = true \/ startsWith p u = true.
Proof.
  revert p. induction u as [|c u IH]; intros [|y p]; simpl; auto.
  intros Hs. apply andb_true_iff in Hs as [Hc Hs].
  rewrite (Ascii.eqb_sym c y), Hc. simpl. now apply IH.
Qed.

Lemma occurs_head (p l x : string) :
  headClear p l = true -> occurs p (l ++ x) = occurs p x.
Proof.
  induction l as [|c l IH]; [reflexivity|].
  cbn [headClear]. intros Hclear.
  apply andb_true_iff in Hclear as [Hclear Hl].
  apply andb_true_iff in Hclear as [H1 H2].
  apply negb_true_iff in H1, H2.
  change (String c l ++ x) with (String c (l ++ x)). cbn [occurs].
  rewrite (IH Hl).
  destruct (startsWith (String c (l ++ x)) p) eqn:Hs; [|reflexivity].
  change (String c (l ++ x)) with (String c l ++ x) in Hs.
  apply startsWith_append_cases in Hs as [Hs | Hs]; congruence.
Qed.

Lemma startsWith_snoc (c : ascii) (p a : string) :
  lastCharIs p c = false ->
  startsWith (a ++ String c EmptyString) p = true -> startsWith a p = true.
Proof.
  unfold lastCharIs.
  revert p. induction a as [|y a IH]; intros [|x p] Hlast; simpl; auto.
  - destruct p; simpl in *; [|now rewrite andb_false_r].
    rewrite Hlast. discriminate.
  - intros Hs. apply andb_true_iff in Hs as [Hx Hs]. rewrite Hx. simpl.
    destruct p as [|x' p]; [now destruct a|].
    apply IH; [exact Hlast | exact Hs].
Qed.

Lemma occurs_snoc (c : ascii) (p s : string) :
  lastCharIs p c = false -> occurs p s = false ->
  occurs p (s ++ String c EmptyString) = false.
Proof.
  intros Hlast. induction s as [|y s IH]; intros Hs.
  - destruct p as [|x p]; [discriminate|].
    simpl. rewrite orb_false_r.
    destruct (Ascii.eqb x c && startsWith EmptyString p) eqn:Hx; [|reflexivity].
    apply (startsWith_snoc c (String x p) EmptyString Hlast) in Hx.
    discriminate.
  - cbn [occurs] in Hs. apply orb_false_iff in Hs as [Hhere Hrest].
    change (String y s ++ String c EmptyString)
      with (String y (s ++ String c EmptyString)).
    cbn [occurs]. rewrite (IH Hrest), orb_false_r.
    destruct (startsWith (String y (s ++ String c EmptyString)) p) eqn:Hx;
      [|reflexivity].
    apply (startsWith_snoc c p (String y s) Hlast) in Hx. congruence.
Qed.

Lemma occurs_nl (p rest : string) :
  has_char nlc p = false -> occurs p rest = false -> occurs p (nl ++ rest) = false.
Proof.
  intros Hno Hrest.
  change (nl ++ rest) with (EmptyString ++ String nlc rest).
  apply occurs_zones; [exact Hno | | exact Hrest].
  destruct p; [destruct rest; discriminate | reflexivity].
Qed.

Lemma occurs_nl_line (p l rest : string) :
  has_char nlc p = false -> occurs p l = false -> occurs p rest = false ->
  occurs p (l ++ nl ++ rest) = false.
Proof. intros. now apply (occurs_zones nlc). Qed.

Lemma occurs_field_line (p l field rest : string) :
  has_char nlc p = false -> headClear p l = true ->
  occurs p field = false -> occurs p rest = false ->
  occurs p (l ++ field ++ nl ++ rest) = false.
Proof.
  intros Hno Hl Hfield Hrest.
  rewrite occurs_head by exact Hl.
  now apply (occurs_zones nlc).
Qed.

(** ** The system instruction *)

Section InstructionProperties.
Context {number : Type} `{JsNumber number}.

Lemma quotesNoTone_field (context : DeviceContext number) (field : string)
    (q : Personality) :
  quotesNoTone context = true -> In field (fieldTexts context) ->
  occurs (personalityTraits q) field = false.
Proof.
  unfold quotesNoTone. intros Hall Hin.
  rewrite forallb_forall in Hall. specialize (Hall field Hin).
  rewrite forallb_forall in Hall.
  apply negb_true_iff, Hall.
  destruct q; simpl; auto.
Qed.

Lemma occurs_locationText (context : DeviceContext number) (q : Personality) :
  quotesNoTone context = true ->
  occurs (personalityTraits q) (locationText context) = false.
Proof.
  intros Hclean. unfold locationText.
  pose proof (fun f => quotesNoTone_field context f q Hclean) as Hfield.
  unfold fieldTexts in Hfield.
  destruct (geolocation context) as [g|]; [|now destruct q].
  assert (Hlat : occurs (personalityTraits q) (numberToString (lat g)) = false)
    by (apply Hfield; rewrite !in_app_iff; simpl; auto).
  assert (Hlng : occurs (personalityTraits q) (numberToString (lng g)) = false)
    by (apply Hfield; rewrite !in_app_iff; simpl; auto).
  rewrite occurs_head by (destruct q; vm_compute; reflexivity).
  change (", Lng " ++ numberToString (lng g))
    with (", " ++ String "L" ("ng " ++ numberToString (lng g))).
  rewrite <- append_assoc.
  apply occurs_zones.
  - destruct q; vm_compute; reflexivity.
  - change ", " with (String "," EmptyString ++ String " " EmptyString).
    rewrite <- append_assoc.
    apply occurs_snoc; [destruct q; vm_compute; reflexivity|].
    apply occurs_snoc; [destruct q; vm_compute; reflexivity|].
    exact Hlat.
  - rewrite occurs_head by (destruct q; vm_compute; reflexivity).
    exact Hlng.
Qed.

Lemma occurs_powerText (context : DeviceContext number) (q : Personality)
    (rest : string) :
  quotesNoTone context = true ->
  occurs (personalityTraits q) rest = false ->
  occurs (personalityTraits q) (powerText context ++ rest) = false.
Proof.
  intros Hclean Hrest. unfold powerText.
  pose proof (fun f => quotesNoTone_field context f q Hclean) as Hfield.
  unfold fieldTexts in Hfield.
  destruct (batteryLevel context) as [level|].
  - rewrite append_assoc.
    change ("%" ++ rest) with (String "%" rest).
    apply occurs_zones; [destruct q; vm_compute; reflexivity | | exact Hrest].
    apply Hfield. rewrite !in_app_iff. simpl. auto.
  - rewrite occurs_head by (destruct q; vm_compute; reflexivity).
    exact Hrest.
Qed.

Ltac closed_check := vm_compute; reflexivity.

Lemma other_tone_absent (context : DeviceContext number)
    (settings : OrionSettings) (q : Personality) :
  quotesNoTone context = true ->
  Personality_eqb q (personality settings) = false ->
  occurs (personalityTraits q) (getSystemInstruction context settings) = false.
Proof.
  intros Hclean Hother.
  pose proof (fun f => quotesNoTone_field context f q Hclean) as Hfield.
  pose proof (occurs_locationText context q Hclean) as Hlocation.
  pose proof (occurs_powerText context q) as Hpower.
  unfold fieldTexts in Hfield.
  assert (Htime : occurs (personalityTraits q) (currentTime context) = false)
    by (apply Hfield; simpl; auto).
  assert (Hplatform : occurs (personalityTraits q) (platform context) = false)
    by (apply Hfield; simpl; auto).
  clear Hfield.
  unfold getSystemInstruction, connectionText, chargingText.
  destruct (personality settings), q; try discriminate Hother; clear Hother;
    cbn [personalityTraits] in *;
    (apply occurs_nl; [closed_check|]);
    (apply occurs_nl_line; [closed_check | closed_check |]);
    (apply occurs_nl_line; [closed_check | closed_check |]);
    (apply occurs_nl; [closed_check|]);
    (apply occurs_nl_line; [closed_check | closed_check |]);
    (apply occurs_nl_line; [closed_check | closed_check |]);
    (apply occurs_field_line; [closed_check | closed_check | closed_check |]);
    (apply occurs_nl_line; [closed_check | closed_check |]);
    (apply occurs_nl; [closed_check|]);
    (apply occurs_nl_line; [closed_check | closed_check |]);
    (apply occurs_field_line; [closed_check | closed_check | exact Htime |]);
    (apply occurs_field_line;
       [closed_check | closed_check | destruct (isOnline context); closed_check |]);
    (rewrite occurs_head by closed_check);
    (apply Hpower; [exact Hclean|]);
    (apply occurs_field_line;
       [closed_check | closed_check | destruct (isCharging context); closed_check |]);
    (apply occurs_field_line; [closed_check | closed_check | exact Hplatform |]);
    (apply occurs_field_line; [closed_check | closed_check | exact Hlocation |]);
    (apply occurs_nl; [closed_check|]);
    (apply occurs_nl_line; [closed_check | closed_check |]);
    (apply occurs_nl_line; [closed_check | closed_check |]);
    (apply occurs_nl_line; [closed_check | closed_check |]);
    (apply occurs_nl_line; [closed_check | closed_check |]);
    (apply occurs_nl; [closed_check|]);
    (apply occurs_nl_line; [closed_check | closed_check |]);
    (apply occurs_nl_line; [closed_check | closed_check |]);
    (apply occurs_nl_line; [closed_check | closed_check |]);
    closed_check.
Qed.

End InstructionProperties.

Lemma sameExcept_here (l r post : string) :
  sameExcept (l ++ post) (r ++ post) l r.
Proof. now exists EmptyString, post. Qed.

Lemma sameExcept_later (a x y l r : string) :
  sameExcept x y l r -> sameExcept (a ++ x) (a ++ y) l r.
Proof.
  intros (pre & post & -> & ->).
  exists (a ++ pre), post. now rewrite !append_assoc.
Qed.

Section InstructionClaims.
Context {number : Type} `{JsNumber number}.

Lemma own_tone_present (context : DeviceContext number) (settings : OrionSettings) :
  occurs (personalityTraits (personality settings))
    (getSystemInstruction context settings) = true.
Proof.
  unfold getSystemInstruction.
  do 11 apply occurs_later.
  apply occurs_here.
Qed.

(** C8. For each of the three personalities, and a device context whose own
    texts do not quote a tone description, the rendered system instruction
    contains the tone description selected by the personality and contains
    neither of the other two. *)
Theorem exactly_one_tone (context : DeviceContext number) (settings : OrionSettings) :
  quotesNoTone context = true ->
  occurs (personalityTraits (personality settings))
    (getSystemInstruction context settings) = true
  /\ forall q, q <> personality settings ->
       occurs (personalityTraits q) (getSystemInstruction context settings) = false.
Proof.
  intros Hclean. split; [apply own_tone_present|].
  intros q Hq. apply other_tone_absent; [exact Hclean|].
  destruct q, (personality settings); try reflexivity; congruence.
Qed.

(** C6, amended. The instruction depends on the settings through the
    personality only. An absent geolocation is omitted: the instruction is
    the one with a location, less the location text and with nothing in its
    place. An absent battery level is not omitted: where the percentage would
    stand, the instruction reads [Unknown]. *)
Theorem system_instruction_optional_fields
    (context : DeviceContext number) (settings : OrionSettings) :
  (forall settings',
     personality settings' = personality settings ->
     getSystemInstruction context settings' = getSystemInstruction context settings)
  /\ (forall g,
        sameExcept
          (getSystemInstruction (withGeolocation context None) settings)
          (getSystemInstruction (withGeolocation context (Some g)) settings)
          EmptyString
          ("- Location: Lat " ++ numberToString (lat g)
             ++ ", Lng " ++ numberToString (lng g)))
  /\ (forall level,
        sameExcept
          (getSystemInstruction (withBatteryLevel context None) settings)
          (getSystemInstruction (withBatteryLevel context (Some level)) settings)
          "Unknown"
          (percent level ++ "%")).
Proof.
  split; [|split].
  - intros settings' Hsame. unfold getSystemInstruction. now rewrite Hsame.
  - intros g.
    unfold getSystemInstruction, connectionText, powerText, chargingText,
      locationText, withGeolocation.
    cbn [geolocation batteryLevel isCharging isOnline platform currentTime].
    repeat apply sameExcept_later.
    exact (sameExcept_here EmptyString _ _).
  - intros level.
    unfold getSystemInstruction, connectionText, powerText, chargingText,
      locationText, withBatteryLevel.
    cbn [geolocation batteryLevel isCharging isOnline platform currentTime].
    repeat apply sameExcept_later.
    apply sameExcept_here.
Qed.

End InstructionClaims.

Lemma exactly_one_tone_witness :
  quotesNoTone exampleContext = true
  /\ occurs (personalityTraits friendly)
       (getSystemInstruction exampleContext (mkSettings friendly balanced false)) = true
  /\ forall q, q <> friendly ->
       occurs (personalityTraits q)
         (getSystemInstruction exampleContext (mkSettings friendly balanced false)) = false.
Proof.
  split; [vm_compute; reflexivity|].
  apply (exactly_one_tone exampleContext (mkSettings friendly balanced false)).
  vm_compute; reflexivity.
Defined.

(** C6, as stated, fails for the battery level: in the device context at
    mount no battery level is known, and the instruction renders the
    placeholder [Unknown] on its power line. *)
Lemma absent_battery_placeholder_counterexample :
  batteryLevel bareContext = None
  /\ occurs ("- Power: Unknown (Discharging)" ++ nl)
       (getSystemInstruction bareContext DEFAULT_SETTINGS) = true.
Proof. split; [reflexivity | vm_compute; reflexivity]. Qed.

(** ** The session state machine *)

Section SessionProperties.
Context {number : Type} `{JsNumber number}.

#[local] Abbreviation World := (@World number).
#[local] Abbreviation AppState := (@AppState number).
#[local] Abbreviation Event := (@Event number).

Lemma runTask_state (task : TimerTask) (d : Z) (a : AppState) :
  orionState (applyUpdates a (runTask task d)) = orionState a
  \/ orionState (applyUpdates a (runTask task d)) = OrionState.Idle.
Proof. destruct task; simpl; auto. Qed.

Lemma fireDue_settled (limit : Z) (ts : list (Z * TimerTask)) (a : AppState) :
  settled (orionState a) -> settled (orionState (fst (fireDue limit ts a))).
Proof.
  revert a. induction ts as [|[d task] ts IH]; intros a Ha; simpl; [exact Ha|].
  destruct (d <=? limit)%Z; [|exact Ha].
  apply IH.
  destruct (runTask_state task d a) as [-> | ->]; [exact Ha | discriminate].
Qed.

Lemma step_settled (env : Environment) (w : World) (ev : Event) :
  settled (orionState (app w)) -> settled (orionState (app (step env w ev))).
Proof.
  intros Hw. destruct ev; simpl; try exact Hw.
  - unfold handleSendMessage. destruct (sendAccepted (app w)); simpl;
      [discriminate | exact Hw].
  - destruct (nth_error (awaiting w) n) as [c|]; [|exact Hw].
    destruct (generateOrionResponse _ _ _ _ _ _ _) as [[responseText|e] effects];
      simpl; discriminate.
  - pose proof (fireDue_settled (now w + Z.of_N ms) (timers w) (app w) Hw) as Hfire.
    destruct (fireDue _ _ _). exact Hfire.
Qed.

Lemma run_settled (env : Environment) (events : list Event) (w : World) :
  settled (orionState (app w)) -> settled (orionState (app (run env w events))).
Proof.
  revert w. induction events as [|ev events IH]; intros w Hw; simpl; [exact Hw|].
  apply IH, step_settled, Hw.
Qed.

Lemma truthy_trim_nonempty (s : string) : truthy (trim s) = true -> s <> EmptyString.
Proof. now destruct s. Qed.

Lemma sendAccepted_inv (a : AppState) :
  sendAccepted a = true ->
  orionState a <> OrionState.Thinking
  /\ (truthy (trim (input a)) = true \/ attachedImages a <> []).
Proof.
  unfold sendAccepted. intros Hacc.
  apply negb_true_iff, orb_false_iff in Hacc as [Hempty Hstate].
  split.
  - intros Heq. rewrite Heq in Hstate. discriminate.
  - apply andb_false_iff in Hempty as [Htext | Himages].
    + left. now apply negb_false_iff.
    + right. intros Heq. rewrite Heq in Himages. discriminate.
Qed.

(** The guard of line 95, read as a condition for acceptance. *)
Lemma sendAccepted_iff (a : AppState) :
  sendAccepted a = true <->
  orionState a <> OrionState.Thinking
  /\ (truthy (trim (input a)) = true \/ attachedImages a <> []).
Proof.
  split; [apply sendAccepted_inv|].
  intros [Hstate Hsome]. unfold sendAccepted.
  apply negb_true_iff, orb_false_iff. split.
  - apply andb_false_iff.
    destruct Hsome as [Htext | Himages]; [left; now rewrite Htext|].
    right. now destruct (attachedImages a).
  - now destruct (orionState a).
Qed.

Lemma send_rejected (env : Environment) (w : World) :
  sendAccepted (app w) = false -> step env w Send = w.
Proof. intros Hrej. simpl. unfold handleSendMessage. now rewrite Hrej. Qed.

Lemma send_accepted (env : Environment) (w : World) :
  sendAccepted (app w) = true ->
  step env w Send
  = mkWorld
      (mkApp (messages (app w) ++ [newUserMessage (app w) (now w)])%list
         EmptyString OrionState.Thinking (settings (app w))
         (isSettingsOpen (app w)) [] (deviceContext (app w)))
      (now w) (timers w)
      (awaiting w ++ [mkCall (messages (app w)) (input (app w))
                        (attachedImages (app w)) (deviceContext (app w))
                        (settings (app w))])%list
      (performed w).
Proof. intros Hacc. simpl. unfold handleSendMessage. now rewrite Hacc. Qed.

(** C1. In every state the page can reach, a send is accepted only when the
    session state is Idle, Responding or Error and there is text or an image;
    while Thinking, or with empty text and no image, the send changes
    nothing at all; an accepted send appends exactly one user message,
    clears the pending text and images and sets Thinking, in this order and
    before the gateway call is started. *)
Theorem send_guard (env : Environment) (start : Z) (localeTime : string)
    (events : list Event) :
  let w := run env (initialWorld env start localeTime) events in
  let a := app w in
  let w' := step env w Send in
  let userMessage := newUserMessage a (now w) in
  let call := mkCall (messages a) (input a) (attachedImages a)
                (deviceContext a) (settings a) in
  (sendAccepted a = true ->
     In (orionState a) [OrionState.Idle; OrionState.Responding; OrionState.Error]
     /\ (input a <> EmptyString \/ attachedImages a <> []))
  /\ (orionState a = OrionState.Thinking
      \/ (input a = EmptyString /\ attachedImages a = []) ->
      w' = w)
  /\ (sendAccepted a = true ->
      handleSendMessage a (now w)
      = [ Set_ (AppendMessage userMessage);
          Set_ (SetInput EmptyString);
          Set_ (SetAttachedImages []);
          Set_ (SetOrionState OrionState.Thinking);
          Await call ]
      /\ messages (app w') = (messages a ++ [userMessage])%list
      /\ sender userMessage = Sender.User
      /\ text userMessage = input a
      /\ attachments userMessage = Some (attachedImages a)
      /\ input (app w') = EmptyString
      /\ attachedImages (app w') = []
      /\ orionState (app w') = OrionState.Thinking
      /\ awaiting w' = (awaiting w ++ [call])%list).
Proof.
  intros w a w' userMessage call.
  assert (Hsettled : settled (orionState a))
    by (apply run_settled; discriminate).
  split; [|split].
  - intros Hacc. apply sendAccepted_inv in Hacc as [Hstate Hsome].
    split.
    + unfold settled in Hsettled. simpl.
      destruct (orionState a); auto; congruence.
    + destruct Hsome as [Htext | Himages]; [left | now right].
      now apply truthy_trim_nonempty.
  - intros Hno. apply send_rejected. unfold sendAccepted. fold a.
    destruct Hno as [-> | [-> ->]]; [|reflexivity].
    now rewrite orb_true_r.
  - intros Hacc. subst w'. rewrite (send_accepted env w Hacc).
    unfold handleSendMessage. fold a. rewrite Hacc.
    repeat split.
Qed.

Lemma insertTimer_no_greeting (deadline : Z) (task : TimerTask)
    (ts : list (Z * TimerTask)) :
  isGreeting task = false ->
  existsb (fun timer => isGreeting (snd timer)) ts = false ->
  existsb (fun timer => isGreeting (snd timer)) (insertTimer deadline task ts) = false.
Proof.
  intros Htask. induction ts as [|[d t] ts IH]; simpl.
  - intros _. now rewrite Htask.
  - intros Hts. apply orb_false_iff in Hts as [Ht Hrest].
    destruct (d <=? deadline)%Z; simpl.
    + now rewrite Ht, IH.
    + now rewrite Htask, Ht, Hrest.
Qed.

Lemma fireDue_append_only (limit : Z) (ts : list (Z * TimerTask)) (a : AppState) :
  existsb (fun timer => isGreeting (snd timer)) ts = false ->
  (exists suffix,
     messages (fst (fireDue limit ts a)) = (messages a ++ suffix)%list)
  /\ existsb (fun timer => isGreeting (snd timer)) (snd (fireDue limit ts a)) = false.
Proof.
  revert a. induction ts as [|[d task] ts IH]; intros a Hts; simpl.
  - split; [exists []; now rewrite app_nil_r | reflexivity].
  - simpl in Hts. apply orb_false_iff in Hts as [Htask Hrest].
    destruct (d <=? limit)%Z.
    + destruct (IH (applyUpdates a (runTask task d)) Hrest) as [[suffix Hs] Hg].
      split; [|exact Hg].
      rewrite Hs.
      destruct task; [discriminate | |]; simpl.
      * eexists. now rewrite <- app_assoc.
      * now exists suffix.
    + split; [exists []; now rewrite app_nil_r|].
      simpl. now rewrite Htask, Hrest.
Qed.

Lemma step_append_only (env : Environment) (w : World) (ev : Event) :
  greetingPending w = false ->
  (exists suffix,
     messages (app (step env w ev)) = (messages (app w) ++ suffix)%list)
  /\ greetingPending (step env w ev) = false.
Proof.
  unfold greetingPending. intros Hw.
  destruct ev; simpl;
    try (split; [exists []; now rewrite app_nil_r | exact Hw]).
  - unfold handleSendMessage. destruct (sendAccepted (app w)); simpl.
    + split; [now eexists | exact Hw].
    + split; [exists []; now rewrite app_nil_r | exact Hw].
  - destruct (nth_error (awaiting w) n) as [c|];
      [|split; [exists []; now rewrite app_nil_r | exact Hw]].
    destruct (generateOrionResponse _ _ _ _ _ _ _) as [[responseText|e] effects];
      simpl; (split; [exists []; now rewrite app_nil_r|]);
      now apply insertTimer_no_greeting.
  - pose proof (fireDue_append_only (now w + Z.of_N ms) (timers w) (app w) Hw)
      as [Hmessages Hg].
    destruct (fireDue _ _ _). simpl in *. now split.
Qed.

Lemma run_append_only (env : Environment) (events : list Event) (w : World) :
  greetingPending w = false ->
  exists suffix,
    messages (app (run env w events)) = (messages (app w) ++ suffix)%list.
Proof.
  revert w. induction events as [|ev events IH]; intros w Hw; simpl.
  - exists []. now rewrite app_nil_r.
  - destruct (step_append_only env w ev Hw) as [[s1 Hs1] Hg].
    destruct (IH _ Hg) as [s2 Hs2].
    exists (s1 ++ s2)%list. now rewrite Hs2, Hs1, <- app_assoc.
Qed.

(** Each operation of the session state machine leaves the transcript as
    it is or appends to it: an accepted send appends the user message, a
    rejected one nothing; the gateway's answer or failure changes nothing
    when it arrives; the display timer appends the assistant message; the
    error reset changes nothing. Hence, once the greeting is shown, the
    transcript after any sequence of events extends the transcript before:
    no shorter, every message where it was. Before that the greeting timer
    is pending, and its callback replaces the transcript. *)
Theorem transcript_append_only (env : Environment) (w : World) :
  (exists suffix,
     messages (app (step env w Send)) = (messages (app w) ++ suffix)%list
     /\ List.length suffix <= 1)
  /\ (forall n sdk,
        messages (app (step env w (Settle n sdk))) = messages (app w))
  /\ (forall responseText instant,
        exists reply,
          messages (applyUpdates (app w) (runTask (ShowResponse responseText) instant))
          = (messages (app w) ++ [reply])%list
          /\ text reply = responseText /\ sender reply = Sender.Orion)
  /\ (forall instant,
        messages (applyUpdates (app w) (runTask ResetError instant))
        = messages (app w))
  /\ (forall events,
        greetingPending w = false ->
        exists suffix,
          messages (app (run env w events)) = (messages (app w) ++ suffix)%list
          /\ List.length (messages (app w))
             <= List.length (messages (app (run env w events)))
          /\ forall i m,
               nth_error (messages (app w)) i = Some m ->
               nth_error (messages (app (run env w events))) i = Some m).
Proof.
  split; [|split; [|split; [|split]]].
  - simpl. unfold handleSendMessage. destruct (sendAccepted (app w)); simpl.
    + eexists. split; [reflexivity | simpl; lia].
    + exists []. split; [now rewrite app_nil_r | simpl; lia].
  - intros n sdk. simpl.
    destruct (nth_error (awaiting w) n) as [c|]; [|reflexivity].
    destruct (generateOrionResponse _ _ _ _ _ _ _) as [[responseText|e] effects];
      reflexivity.
  - intros responseText instant. simpl. eexists. repeat split.
  - reflexivity.
  - intros events Hw.
    destruct (run_append_only env events w Hw) as [suffix Hs].
    exists suffix. rewrite Hs. split; [reflexivity|]. split.
    + rewrite length_app. lia.
    + intros i m Hi. rewrite nth_error_app1; [exact Hi|].
      apply nth_error_Some. congruence.
Qed.

Lemma step_edit (env : Environment) (w : World) (ev : Event) :
  isEdit ev = true ->
  awaiting (step env w ev) = awaiting w
  /\ performed (step env w ev) = performed w
  /\ timers (step env w ev) = timers w
  /\ now (step env w ev) = now w
  /\ messages (app (step env w ev)) = messages (app w)
  /\ orionState (app (step env w ev)) = orionState (app w).
Proof. destruct ev; simpl; intros Hedit; try discriminate; repeat split. Qed.

Lemma run_edits (env : Environment) (edits : list Event) (w : World) :
  forallb isEdit edits = true ->
  awaiting (run env w edits) = awaiting w
  /\ performed (run env w edits) = performed w
  /\ timers (run env w edits) = timers w
  /\ now (run env w edits) = now w
  /\ messages (app (run env w edits)) = messages (app w)
  /\ orionState (app (run env w edits)) = orionState (app w).
Proof.
  revert w. induction edits as [|ev edits IH]; intros w Hall; simpl.
  - repeat split.
  - simpl in Hall. apply andb_true_iff in Hall as [Hev Hrest].
    destruct (step_edit env w ev Hev) as (E1 & E2 & E3 & E4 & E5 & E6).
    destruct (IH (step env w ev) Hrest) as (R1 & R2 & R3 & R4 & R5 & R6).
    repeat split; congruence.
Qed.

Lemma run_quiet_no_timer (env : Environment) (events : list Event) (w : World) :
  forallb isQuiet events = true ->
  timers w = [] ->
  timers (run env w events) = []
  /\ awaiting (run env w events) = awaiting w
  /\ performed (run env w events) = performed w
  /\ messages (app (run env w events)) = messages (app w)
  /\ orionState (app (run env w events)) = orionState (app w)
  /\ (now w <= now (run env w events))%Z.
Proof.
  revert w. induction events as [|ev events IH]; intros w Hall Htimers; simpl.
  - repeat split; [exact Htimers | lia].
  - simpl in Hall. apply andb_true_iff in Hall as [Hev Hrest].
    assert (Hstep : timers (step env w ev) = []
                    /\ awaiting (step env w ev) = awaiting w
                    /\ performed (step env w ev) = performed w
                    /\ messages (app (step env w ev)) = messages (app w)
                    /\ orionState (app (step env w ev)) = orionState (app w)
                    /\ (now w <= now (step env w ev))%Z).
    { destruct ev; try discriminate Hev; simpl; rewrite ?Htimers; simpl;
        repeat split; lia. }
    destruct Hstep as (S1 & S2 & S3 & S4 & S5 & S6).
    destruct (IH (step env w ev) Hrest S1) as (R1 & R2 & R3 & R4 & R5 & R6).
    repeat split; try congruence. lia.
Qed.

(** With one timer pending, set by the answer or the failure of a call, and
    nothing but edits and time passing: until its deadline nothing changes,
    and from its deadline on the session is Idle and the transcript has what
    the callback appends. *)
Lemma run_quiet_one_timer (env : Environment) (deadline : Z) (task : TimerTask)
    (events : list Event) (w : World) :
  forallb isQuiet events = true ->
  isGreeting task = false ->
  timers w = [(deadline, task)] ->
  (now w < deadline)%Z ->
  awaiting (run env w events) = awaiting w
  /\ performed (run env w events) = performed w
  /\ (((now (run env w events) < deadline)%Z
       /\ timers (run env w events) = [(deadline, task)]
       /\ messages (app (run env w events)) = messages (app w)
       /\ orionState (app (run env w events)) = orionState (app w))
      \/ ((deadline <= now (run env w events))%Z
          /\ timers (run env w events) = []
          /\ messages (app (run env w events))
             = (messages (app w) ++ shownBy task deadline)%list
          /\ orionState (app (run env w events)) = OrionState.Idle)).
Proof.
  revert w. induction events as [|ev events IH]; intros w Hall Htask Htimers Hnow;
    simpl.
  - split; [reflexivity|]. split; [reflexivity|]. left. repeat split; assumption.
  - simpl in Hall. apply andb_true_iff in Hall as [Hev Hrest].
    destruct (isEdit ev) eqn:Hedit.
    + destruct (step_edit env w ev Hedit) as (E1 & E2 & E3 & E4 & E5 & E6).
      destruct (IH (step env w ev) Hrest Htask) as (A & P & Hcases);
        [congruence | lia |].
      rewrite E1 in A. rewrite E2 in P. rewrite E5, E6 in Hcases.
      split; [exact A|]. split; [exact P|]. exact Hcases.
    + destruct ev; try discriminate Hedit; try discriminate Hev.
      cbn [step]. rewrite Htimers. cbn [fireDue].
      destruct (deadline <=? now w + Z.of_N ms)%Z eqn:Hdue.
      * apply Z.leb_le in Hdue.
        set (w1 := mkWorld (applyUpdates (app w) (runTask task deadline))
                     (now w + Z.of_N ms)%Z [] (awaiting w) (performed w)).
        destruct (run_quiet_no_timer env events w1 Hrest eq_refl)
          as (R1 & R2 & R3 & R4 & R5 & R6).
        split; [exact R2|]. split; [exact R3|]. right.
        split; [simpl in R6; lia|]. split; [exact R1|].
        rewrite R4, R5. subst w1.
        destruct task; [discriminate Htask | |]; simpl;
          [split; reflexivity | split; [now rewrite app_nil_r | reflexivity]].
      * apply Z.leb_gt in Hdue.
        set (w1 := mkWorld (app w) (now w + Z.of_N ms)%Z [(deadline, task)]
                     (awaiting w) (performed w)).
        exact (IH w1 Hrest Htask eq_refl Hdue).
Qed.

(** The call at the end of the awaited ones is the one of the last send. *)
Lemma nth_error_last {A : Type} (l : list A) (x : A) :
  nth_error (l ++ [x])%list (List.length l) = Some x.
Proof. induction l as [|y l IH]; simpl; [reflexivity | exact IH]. Qed.

Lemma removeNth_last {A : Type} (l : list A) (x : A) :
  removeNth (List.length l) (l ++ [x])%list = l.
Proof. induction l as [|y l IH]; simpl; [reflexivity | now rewrite IH]. Qed.

(** What the arrival of a call's outcome does when no timer is pending. *)
Lemma settle_outcome (env : Environment) (w : World) (n : nat) (sdk : GoogleGenAI)
    (c : @Call number) :
  nth_error (awaiting w) n = Some c ->
  timers w = [] ->
  let outcome :=
    generateOrionResponse (API_KEY env) sdk (call_history c) (call_prompt c)
      (call_images c) (call_context c) (call_settings c) in
  let w' := step env w (Settle n sdk) in
  now w' = now w
  /\ messages (app w') = messages (app w)
  /\ awaiting w' = removeNth n (awaiting w)
  /\ performed w' = (performed w ++ snd outcome)%list
  /\ match fst outcome with
     | Returned responseText =>
         orionState (app w') = OrionState.Responding
         /\ timers w' = [((now w + 800)%Z, ShowResponse responseText)]
     | Thrown _ =>
         orionState (app w') = OrionState.Error
         /\ timers w' = [((now w + 3000)%Z, ResetError)]
     end.
Proof.
  intros Hnth Htimers outcome w'. subst w' outcome. cbn [step]. rewrite Hnth.
  destruct (generateOrionResponse _ _ _ _ _ _ _) as [[responseText|e] effects];
    simpl; rewrite Htimers; repeat split.
Qed.

(** C2, amended. A send accepted while the session is Idle with no timer
    pending, whose gateway call fails after any delay: with nothing but
    edits and time passing in between, and whatever other calls are still
    awaited, the state is Thinking from the send until the failure arrives,
    Error from then until 3000 ms have passed since the failure, and Idle
    from then on; throughout, the transcript is the one before the send
    followed by the one user message. *)
Theorem failed_turn_from_idle (env : Environment) (w : World) (sdk : GoogleGenAI)
    (e : JsError) (waiting resting : list Event) :
  orionState (app w) = OrionState.Idle ->
  timers w = [] ->
  sendAccepted (app w) = true ->
  fst (generateOrionResponse (API_KEY env) sdk (messages (app w)) (input (app w))
         (attachedImages (app w)) (deviceContext (app w)) (settings (app w)))
  = Thrown e ->
  forallb isQuiet waiting = true ->
  forallb isQuiet resting = true ->
  let transcript :=
    (messages (app w) ++ [newUserMessage (app w) (now w)])%list in
  let w1 := step env w Send in
  let w2 := run env w1 waiting in
  let w3 := step env w2 (Settle (List.length (awaiting w)) sdk) in
  let w4 := run env w3 resting in
  (orionState (app w1) = OrionState.Thinking /\ messages (app w1) = transcript)
  /\ (orionState (app w2) = OrionState.Thinking /\ messages (app w2) = transcript
      /\ (now w <= now w2)%Z)
  /\ (orionState (app w3) = OrionState.Error /\ messages (app w3) = transcript
      /\ now w3 = now w2 /\ awaiting w3 = awaiting w)
  /\ messages (app w4) = transcript
  /\ ((now w4 < now w3 + 3000)%Z -> orionState (app w4) = OrionState.Error)
  /\ ((now w3 + 3000 <= now w4)%Z -> orionState (app w4) = OrionState.Idle).
Proof.
  intros Hidle Htimers Hacc Hfail Hwaiting Hresting transcript w1 w2 w3 w4.
  set (call := mkCall (messages (app w)) (input (app w)) (attachedImages (app w))
                 (deviceContext (app w)) (settings (app w))).
  assert (Hw1 : orionState (app w1) = OrionState.Thinking
                /\ messages (app w1) = transcript
                /\ timers w1 = [] /\ now w1 = now w
                /\ awaiting w1 = (awaiting w ++ [call])%list).
  { subst w1. rewrite (send_accepted env w Hacc). simpl. now repeat split. }
  destruct Hw1 as (S1 & M1 & T1 & N1 & A1).
  destruct (run_quiet_no_timer env waiting w1 Hwaiting T1)
    as (T2 & A2 & _ & M2 & S2 & N2).
  fold w2 in T2, A2, M2, S2, N2.
  assert (Hnth : nth_error (awaiting w2) (List.length (awaiting w)) = Some call)
    by (rewrite A2, A1; apply nth_error_last).
  pose proof (settle_outcome env w2 _ sdk call Hnth T2) as Hsettle.
  cbv zeta in Hsettle. fold w3 in Hsettle.
  destruct Hsettle as (N3 & M3 & A3 & _ & Hcase).
  subst call. cbn [call_history call_prompt call_images call_context call_settings]
    in Hcase.
  rewrite Hfail in Hcase. destruct Hcase as [S3 T3].
  assert (Hahead : (now w3 < now w2 + 3000)%Z) by lia.
  destruct (run_quiet_one_timer env (now w2 + 3000)%Z ResetError resting w3
              Hresting eq_refl T3 Hahead) as (_ & _ & Hcases).
  fold w4 in Hcases. simpl in Hcases. rewrite app_nil_r in Hcases.
  split; [now split|].
  split; [repeat split; congruence || lia|].
  split; [repeat split; try congruence;
          rewrite A3, A2, A1; apply removeNth_last|].
  rewrite N3.
  destruct Hcases as [(L1 & _ & L3 & L4) | (R1 & _ & R3 & R4)].
  - split; [congruence|]. split; [intros _; congruence | intros Hlate; lia].
  - split; [congruence|]. split; [intros Hearly; lia | intros _; exact R4].
Qed.

End SessionProperties.

Lemma failed_turn_from_idle_witness :
  let waiting : list (@Event Q) := [Elapse 1200; TypeInput "hello?"; Elapse 34] in
  let sent := step exampleEnv readyWorld Send in
  let failed :=
    step exampleEnv (run exampleEnv sent waiting) (Settle 0 failingSdk) in
  let early := run exampleEnv failed [Elapse 2000; TypeInput "anyone?"; Elapse 999] in
  let late := run exampleEnv failed [Elapse 2000; TypeInput "anyone?"; Elapse 1000] in
  (now sent = 1000%Z /\ now failed = 2234%Z
   /\ now early = 5233%Z /\ now late = 5234%Z)
  /\ (orionState (app sent) = OrionState.Thinking
      /\ orionState (app failed) = OrionState.Error)
  /\ (orionState (app early) = OrionState.Error
      /\ map text (messages (app early)) = [INITIAL_GREETING; "status?"])
  /\ (orionState (app late) = OrionState.Idle
      /\ map text (messages (app late)) = [INITIAL_GREETING; "status?"]).
Proof.
  pose proof (failed_turn_from_idle exampleEnv readyWorld failingSdk
                (ErrorObject "Error" "503 Service Unavailable")
                [Elapse 1200; TypeInput "hello?"; Elapse 34]
                [Elapse 2000; TypeInput "anyone?"; Elapse 999]
                eq_refl eq_refl eq_refl eq_refl eq_refl eq_refl)
    as (H1 & _ & H3 & M4 & E4 & _).
  pose proof (failed_turn_from_idle exampleEnv readyWorld failingSdk
                (ErrorObject "Error" "503 Service Unavailable")
                [Elapse 1200; TypeInput "hello?"; Elapse 34]
                [Elapse 2000; TypeInput "anyone?"; Elapse 1000]
                eq_refl eq_refl eq_refl eq_refl eq_refl eq_refl)
    as (_ & _ & _ & M5 & _ & L5).
  cbv zeta.
  split; [repeat split|].
  split; [exact (conj (proj1 H1) (proj1 H3))|].
  split.
  - split; [exact (E4 eq_refl)|].
    exact (eq_trans (f_equal (map text) M4) eq_refl).
  - split; [exact (L5 (fun Hgt => match Hgt with eq_refl => I end))|].
    exact (eq_trans (f_equal (map text) M5) eq_refl).
Defined.

(** C2, as stated, fails. A send is also accepted while Responding: here the
    second send is accepted 0 ms after the first answer arrived, its call
    fails, and 3000 ms later the session is Idle with a transcript that holds
    the assistant's earlier answer after the second user message; the state
    before that send was Responding, not Idle. *)
Lemma failed_turn_counterexample :
  let before :=
    run exampleEnv readyWorld [Send; Settle 0 answeringSdk; TypeInput "again"] in
  let after :=
    run exampleEnv before [Send; Settle 0 failingSdk; Elapse 3000] in
  sendAccepted (app before) = true
  /\ orionState (app before) = OrionState.Responding
  /\ map text (messages (app before)) = [INITIAL_GREETING; "status?"]
  /\ fst (generateOrionResponse (API_KEY exampleEnv) failingSdk
            (messages (app before)) (input (app before))
            (attachedImages (app before)) (deviceContext (app before))
            (settings (app before)))
     = Thrown (ErrorObject "Error" "503 Service Unavailable")
  /\ orionState (app after) = OrionState.Idle
  /\ map text (messages (app after))
     = [INITIAL_GREETING; "status?"; "again"; "All systems nominal."]
  /\ map sender (messages (app after))
     = [Sender.Orion; Sender.User; Sender.User; Sender.Orion].
Proof. vm_compute. repeat split. Qed.

(** ** Runs on concrete inputs *)

Example split_data_uri :
  split "," "data:image/jpeg;base64,QUJD" = ["data:image/jpeg;base64"; "QUJD"]
  /\ split ";" "data:image/jpeg;base64,QUJD" = ["data:image/jpeg"; "base64,QUJD"]
  /\ split ":" "data:image/jpeg" = ["data"; "image/jpeg"]
  /\ split "," EmptyString = [EmptyString].
Proof. repeat split. Qed.

Example malformed_attachments :
  buildParts [] "status?" ["data:image/jpeg;base64,QUJD"; "QUJD"; "image/gif;base64,R0lG"]
  = ret [ TextPart (nl ++ "User: status?");
          InlineDataPart "image/jpeg" (Some "QUJD");
          InlineDataPart "image/png" None;
          InlineDataPart "image/png" (Some "R0lG") ].
Proof. reflexivity. Qed.

Example status_scenario :
  let request := requestOf [] "status?" [] exampleContext DEFAULT_SETTINGS in
  parts request = [TextPart (nl ++ "User: status?")]
  /\ occurs ("- Connection: Online" ++ nl) (systemInstruction request) = true
  /\ occurs ("- Power: 42% (Discharging)" ++ nl) (systemInstruction request) = true
  /\ occurs ("- Location: Lat 37.7749, Lng -122.4194" ++ nl) (systemInstruction request) = true.
Proof. vm_compute. repeat split. Qed.

Example seventh_message_dropped :
  let m (n : Z) := mkMessage (Z_toString n) (Z_toString n) Sender.User n None in
  fullPrompt [m 1; m 2; m 3; m 4; m 5; m 6; m 7]%Z "8"
  = "User: 2" ++ nl ++ "User: 3" ++ nl ++ "User: 4" ++ nl ++ "User: 5" ++ nl
    ++ "User: 6" ++ nl ++ "User: 7" ++ nl ++ nl ++ "User: 8".
Proof. reflexivity. Qed.

Example missing_key_run :
  generateOrionResponse None answeringSdk [] "status?" [] bareContext DEFAULT_SETTINGS
  = (Thrown (ErrorObject "Error" "API Key is missing."), [])
  /\ generateOrionResponse (Some EmptyString) answeringSdk [] "status?" [] bareContext
       DEFAULT_SETTINGS
     = (Thrown (ErrorObject "Error" "API Key is missing."), []).
Proof. split; reflexivity. Qed.

Example empty_answer_run :
  generateOrionResponse (Some "key") (fun _ _ => Returned (mkResponse (Some EmptyString)))
    [] "status?" [] bareContext DEFAULT_SETTINGS
  = (Returned "Systems unresponsive. Please try again.",
     [GenerateContent (requestOf [] "status?" [] bareContext DEFAULT_SETTINGS)]).
Proof. reflexivity. Qed.

Example service_failure_run :
  generateOrionResponse (Some "key") failingSdk [] "status?" [] bareContext DEFAULT_SETTINGS
  = (Thrown (ErrorObject "Error" "503 Service Unavailable"),
     [GenerateContent (requestOf [] "status?" [] bareContext DEFAULT_SETTINGS);
      ConsoleError "Orion Cognitive Failure:"
        (ErrorObject "Error" "503 Service Unavailable")]).
Proof. reflexivity. Qed.

Example blank_text_rejected :
  let w := run exampleEnv readyWorld [TypeInput "   "] in
  sendAccepted (app w) = false /\ step exampleEnv w Send = w.
Proof. split; reflexivity. Qed.

Example send_while_thinking :
  let w := run exampleEnv readyWorld [Send; TypeInput "again"] in
  orionState (app w) = OrionState.Thinking
  /\ step exampleEnv w Send = w.
Proof. split; reflexivity. Qed.

Example answered_turn :
  let w := run exampleEnv readyWorld [Send; Settle 0 answeringSdk] in
  orionState (app w) = OrionState.Responding
  /\ orionState (app (step exampleEnv w (Elapse 799))) = OrionState.Responding
  /\ orionState (app (step exampleEnv w (Elapse 800))) = OrionState.Idle
  /\ map text (messages (app (step exampleEnv w (Elapse 800))))
     = [INITIAL_GREETING; "status?"; "All systems nominal."].
Proof. vm_compute. repeat split. Qed.

(** The greeting of the mount effect replaces the transcript: a message sent
    within the first second is gone once the greeting is shown. *)
Example greeting_replaces_early_message :
  let w := run exampleEnv (initialWorld (number := Q) exampleEnv 0 "11/2/2026, 1:33:00 PM")
             [TypeInput "status?"; Send] in
  greetingPending w = true
  /\ map text (messages (app w)) = ["status?"]
  /\ map text (messages (app (step exampleEnv w (Elapse 1000)))) = [INITIAL_GREETING].
Proof. vm_compute. repeat split. Qed.

(** C9, at an input where the code departs from it. The callback of the
    greeting timer, lines 40-47, sets the transcript to the greeting alone
    where the sends and the display timer append to what is there. A
    message sent within the first second after the mount is accepted and
    shown, its call is awaited, and at 1000 ms it is gone from the
    transcript; when the answer then arrives it is shown after the greeting,
    with no message of the user before it. With an answer shown before the
    1000 ms have passed, the transcript goes from two messages to one. *)
Lemma greeting_discards_early_messages :
  let mounted := initialWorld (number := Q) exampleEnv 0 "11/2/2026, 1:33:00 PM" in
  let sent := run exampleEnv mounted [Elapse 400; TypeInput "status?"; Send] in
  let greeted := step exampleEnv sent (Elapse 600) in
  let answered := run exampleEnv greeted [Settle 0 answeringSdk; Elapse 800] in
  let quick :=
    run exampleEnv mounted
      [TypeInput "status?"; Send; Elapse 100; Settle 0 answeringSdk; Elapse 800] in
  let late := step exampleEnv quick (Elapse 100) in
  (now sent = 400%Z
   /\ map text (messages (app sent)) = ["status?"]
   /\ map sender (messages (app sent)) = [Sender.User]
   /\ List.length (awaiting sent) = 1)
  /\ (now greeted = 1000%Z
      /\ map text (messages (app greeted)) = [INITIAL_GREETING]
      /\ map sender (messages (app greeted)) = [Sender.Orion]
      /\ orionState (app greeted) = OrionState.Thinking
      /\ List.length (awaiting greeted) = 1)
  /\ map text (messages (app answered)) = [INITIAL_GREETING; "All systems nominal."]
  /\ (now quick = 900%Z
      /\ map text (messages (app quick)) = ["status?"; "All systems nominal."])
  /\ (now late = 1000%Z
      /\ map text (messages (app late)) = [INITIAL_GREETING]
      /\ List.length (messages (app late)) = 1
      /\ List.length (messages (app quick)) = 2).
Proof. vm_compute. repeat split. Qed.

(** * Further properties *)

(** ** The gateway, whatever the service does *)

Section GatewayOutcomes.
Context {number : Type} `{JsNumber number}.

Lemma generateOrionResponse_cases (API_KEY : option string) (sdk : GoogleGenAI)
    (history : list Message) (currentPrompt : string) (images : list string)
    (context : DeviceContext number) (settings : OrionSettings) :
  let request := requestOf history currentPrompt images context settings in
  let run := generateOrionResponse API_KEY sdk history currentPrompt images
               context settings in
  run = (Thrown (ErrorObject "Error" "API Key is missing."), [])
  \/ (exists r, truthy r = true /\ run = (Returned r, [GenerateContent request]))
  \/ (exists e, run = (Thrown e, [GenerateContent request;
                                  ConsoleError "Orion Cognitive Failure:" e])).
Proof.
  intros request run. subst run.
  destruct API_KEY as [key|]; [|now left].
  destruct (truthy key) eqn:Hkey.
  - rewrite generateOrionResponse_with_key by exact Hkey. fold request.
    destruct (sdk key request) as [response|e]; [right; left | right; right].
    + eexists. split; [|reflexivity].
      destruct (response_text response) as [[|c t]|]; reflexivity.
    + now exists e.
  - left. unfold generateOrionResponse. now rewrite Hkey.
Qed.

(** X9. With a credential, the gateway calls the service exactly once and never
    again: an error of the service is thrown on unchanged after one
    [console.error]; a non-empty text is returned unchanged; and whatever
    the service answers, the text returned is never empty. *)
Theorem gateway_outcomes (key : string) (sdk : GoogleGenAI)
    (history : list Message) (currentPrompt : string) (images : list string)
    (context : DeviceContext number) (settings : OrionSettings) :
  truthy key = true ->
  let request := requestOf history currentPrompt images context settings in
  let run := generateOrionResponse (Some key) sdk history currentPrompt images
               context settings in
  (forall e, sdk key request = Thrown e ->
     run = (Thrown e, [GenerateContent request;
                       ConsoleError "Orion Cognitive Failure:" e]))
  /\ (forall response answer,
        sdk key request = Returned response ->
        response_text response = Some answer -> truthy answer = true ->
        run = (Returned answer, [GenerateContent request]))
  /\ (forall r, fst run = Returned r -> truthy r = true)
  /\ (exists logged,
        snd run = GenerateContent request :: logged
        /\ forall again, In (GenerateContent again) logged -> False).
Proof.
  intros Hkey request run. subst run.
  rewrite generateOrionResponse_with_key by exact Hkey. fold request.
  split; [|split; [|split]].
  - intros e ->. reflexivity.
  - intros response answer -> Hanswer Htruthy. simpl. rewrite Hanswer.
    simpl. now rewrite Htruthy.
  - intros r. destruct (sdk key request) as [response|e]; simpl; [|discriminate].
    intros Hr. injection Hr as <-.
    destruct (response_text response) as [[|c t]|]; reflexivity.
  - destruct (sdk key request) as [response|e]; simpl; eexists;
      (split; [reflexivity|]); simpl; intros again Hin.
    + exact Hin.
    + destruct Hin as [Hin | []]. discriminate Hin.
Qed.

End GatewayOutcomes.

Lemma gateway_outcomes_witness :
  let run := generateOrionResponse (Some "key") failingSdk [] "status?" []
               bareContext DEFAULT_SETTINGS in
  let request := requestOf [] "status?" [] bareContext DEFAULT_SETTINGS in
  truthy "key" = true
  /\ run = (Thrown (ErrorObject "Error" "503 Service Unavailable"),
            [GenerateContent request;
             ConsoleError "Orion Cognitive Failure:"
               (ErrorObject "Error" "503 Service Unavailable")]).
Proof.
  cbv zeta. split; [reflexivity|].
  apply (gateway_outcomes "key" failingSdk [] "status?" [] bareContext
           DEFAULT_SETTINGS eq_refl).
  reflexivity.
Defined.

(** ** Blank input *)

Lemma trimEnd_empty (s : string) :
  trimEnd s = EmptyString <-> allWhiteSpace s = true.
Proof.
  induction s as [|c s IH]; simpl; [tauto|].
  destruct (trimEnd s) as [|x rest].
  - destruct (isWhiteSpace c); simpl; [tauto|].
    split; discriminate.
  - split; [discriminate|].
    intros Hall. apply andb_true_iff in Hall as [_ Hs].
    apply IH in Hs. discriminate.
Qed.

Lemma allWhiteSpace_trimStart (s : string) :
  allWhiteSpace (trimStart s) = allWhiteSpace s.
Proof.
  induction s as [|c s IH]; simpl; [reflexivity|].
  destruct (isWhiteSpace c) eqn:Hc; simpl; [exact IH | now rewrite Hc].
Qed.

Lemma truthy_trim (s : string) : truthy (trim s) = negb (allWhiteSpace s).
Proof.
  unfold trim. rewrite <- (allWhiteSpace_trimStart s).
  destruct (trimEnd (trimStart s)) eqn:Htrim; simpl.
  - apply trimEnd_empty in Htrim. now rewrite Htrim.
  - destruct (allWhiteSpace (trimStart s)) eqn:Hall; [|reflexivity].
    apply trimEnd_empty in Hall. congruence.
Qed.

Section MoreSessionProperties.
Context {number : Type} `{JsNumber number}.

#[local] Abbreviation World := (@World number).
#[local] Abbreviation AppState := (@AppState number).
#[local] Abbreviation Event := (@Event number).

Lemma run_app (env : Environment) (w : World) (first second : list Event) :
  run env w (first ++ second) = run env (run env w first) second.
Proof. apply fold_left_app. Qed.

(** X8. A text of white space only, with no image attached, is not sent: the
    send changes nothing. A text with any other character is sent from every
    state but Thinking, and the message and the prompt carry it as typed,
    white space included. *)
Theorem blank_text_is_not_sent (env : Environment) (w : World) :
  (allWhiteSpace (input (app w)) = true /\ attachedImages (app w) = [] ->
   step env w Send = w)
  /\ (allWhiteSpace (input (app w)) = false ->
      (orionState (app w) = OrionState.Thinking -> step env w Send = w)
      /\ (sendAccepted (app w) = false -> orionState (app w) = OrionState.Thinking)
      /\ (sendAccepted (app w) = true ->
          exists m call,
            messages (app (step env w Send)) = (messages (app w) ++ [m])%list
            /\ text m = input (app w)
            /\ awaiting (step env w Send) = (awaiting w ++ [call])%list
            /\ call_prompt call = input (app w))).
Proof.
  split.
  - intros [Hblank Hnone]. apply send_rejected.
    unfold sendAccepted. now rewrite truthy_trim, Hblank, Hnone.
  - intros Htext. split; [|split].
    + intros Hthinking. apply send_rejected.
      unfold sendAccepted. rewrite Hthinking. now rewrite orb_true_r.
    + unfold sendAccepted. rewrite truthy_trim, Htext. simpl.
      now destruct (orionState (app w)).
    + intros Hacc. rewrite (send_accepted env w Hacc). simpl.
      now eexists; eexists.
Qed.

(** ** A turn the service answers *)

(** X1. A send accepted while the session is Idle with no timer pending,
    whose gateway call returns after any delay: with nothing but edits and
    time passing in between, and whatever other calls are still awaited, the
    state is Thinking from the send until the answer arrives, Responding
    from then until 800 ms have passed since the answer, and Idle from then
    on. The one request is made for the send as it was accepted; the answer
    is appended only when the 800 ms have passed, after the user message, as
    a message of Orion whose text is the answer, or the fallback sentence
    when the answer is empty. *)
Theorem answered_turn_from_idle (env : Environment) (w : World) (sdk : GoogleGenAI)
    (key : string) (response : GenerateContentResponse)
    (waiting resting : list Event) :
  orionState (app w) = OrionState.Idle ->
  timers w = [] ->
  sendAccepted (app w) = true ->
  API_KEY env = Some key ->
  truthy key = true ->
  sdk key (pendingRequest (app w)) = Returned response ->
  forallb isQuiet waiting = true ->
  forallb isQuiet resting = true ->
  let shown := orElse (response_text response) FALLBACK_TEXT in
  let transcript := (messages (app w) ++ [newUserMessage (app w) (now w)])%list in
  let w1 := step env w Send in
  let w2 := run env w1 waiting in
  let w3 := step env w2 (Settle (List.length (awaiting w)) sdk) in
  let w4 := run env w3 resting in
  (orionState (app w1) = OrionState.Thinking /\ messages (app w1) = transcript)
  /\ (orionState (app w2) = OrionState.Thinking /\ messages (app w2) = transcript
      /\ (now w <= now w2)%Z /\ performed w2 = performed w)
  /\ (orionState (app w3) = OrionState.Responding /\ messages (app w3) = transcript
      /\ now w3 = now w2 /\ awaiting w3 = awaiting w
      /\ performed w3
         = (performed w ++ [GenerateContent (pendingRequest (app w))])%list)
  /\ ((now w4 < now w3 + 800)%Z ->
      orionState (app w4) = OrionState.Responding /\ messages (app w4) = transcript)
  /\ ((now w3 + 800 <= now w4)%Z ->
      orionState (app w4) = OrionState.Idle
      /\ timers w4 = []
      /\ exists reply,
           messages (app w4) = (transcript ++ [reply])%list
           /\ sender reply = Sender.Orion
           /\ text reply = shown
           /\ truthy (text reply) = true
           /\ attachments reply = None).
Proof.
  intros Hidle Htimers Hacc Hkey Htruthy Hsdk Hwaiting Hresting
    shown transcript w1 w2 w3 w4.
  set (call := mkCall (messages (app w)) (input (app w)) (attachedImages (app w))
                 (deviceContext (app w)) (settings (app w))).
  assert (Hw1 : orionState (app w1) = OrionState.Thinking
                /\ messages (app w1) = transcript
                /\ timers w1 = [] /\ performed w1 = performed w
                /\ awaiting w1 = (awaiting w ++ [call])%list).
  { subst w1. rewrite (send_accepted env w Hacc). simpl. now repeat split. }
  destruct Hw1 as (S1 & M1 & T1 & P1 & A1).
  destruct (run_quiet_no_timer env waiting w1 Hwaiting T1)
    as (T2 & A2 & P2 & M2 & S2 & N2).
  fold w2 in T2, A2, P2, M2, S2, N2.
  assert (Hnow : now w1 = now w)
    by (subst w1; now rewrite (send_accepted env w Hacc)).
  assert (Hnth : nth_error (awaiting w2) (List.length (awaiting w)) = Some call)
    by (rewrite A2, A1; apply nth_error_last).
  pose proof (settle_outcome env w2 _ sdk call Hnth T2) as Hsettle.
  cbv zeta in Hsettle. fold w3 in Hsettle.
  subst call.
  cbn [call_history call_prompt call_images call_context call_settings] in Hsettle.
  rewrite Hkey, generateOrionResponse_with_key in Hsettle by exact Htruthy.
  unfold pendingRequest in Hsdk. rewrite Hsdk in Hsettle.
  fold (pendingRequest (app w)) in Hsettle. cbn [fst snd] in Hsettle.
  fold shown in Hsettle.
  destruct Hsettle as (N3 & M3 & A3 & P3 & S3 & T3).
  assert (Hahead : (now w3 < now w2 + 800)%Z) by lia.
  destruct (run_quiet_one_timer env (now w2 + 800)%Z (ShowResponse shown) resting
              w3 Hresting eq_refl T3 Hahead) as (_ & _ & Hcases).
  fold w4 in Hcases.
  assert (Hshown : truthy shown = true).
  { subst shown. destruct (response_text response) as [[|c t]|]; reflexivity. }
  split; [now split|].
  split; [repeat split; try congruence; lia|].
  split.
  { repeat split; try congruence.
    rewrite A3, A2, A1. apply removeNth_last. }
  rewrite N3.
  destruct Hcases as [(L1 & _ & L3 & L4) | (R1 & R2 & R3 & R4)].
  - split; [intros _; split; congruence | intros Hlate; lia].
  - split; [intros Hearly; lia|]. intros _.
    split; [exact R4|]. split; [exact R2|].
    eexists. split; [rewrite R3, M3, M2, M1; reflexivity|].
    now repeat split.
Qed.

(** ** What the request is made of *)

(** X2. The request of a turn is fixed when the send is accepted. It is built
    from the transcript before the send, the text and the images as they
    were, and the device context and the settings of that moment; what the
    user types, attaches or clears, and how the settings or the device
    context change while the call is awaited, does not reach it. The call
    is made once, and the transcript keeps the one user message. *)
Theorem request_is_snapshot (env : Environment) (w : World) (sdk : GoogleGenAI)
    (key : string) (edits : list Event) :
  sendAccepted (app w) = true ->
  API_KEY env = Some key ->
  truthy key = true ->
  forallb isEdit edits = true ->
  let w' := run env w ([Send] ++ edits ++ [Settle (List.length (awaiting w)) sdk]) in
  (exists logged,
     performed w' = (performed w ++ GenerateContent (pendingRequest (app w)) :: logged)%list
     /\ forall again, In (GenerateContent again) logged -> False)
  /\ parts (pendingRequest (app w))
     = TextPart (renderLines (recentHistory (messages (app w)))
                 ++ nl ++ "User: " ++ input (app w))
       :: map imagePart (attachedImages (app w))
  /\ systemInstruction (pendingRequest (app w))
     = getSystemInstruction (deviceContext (app w)) (settings (app w))
  /\ messages (app w')
     = (messages (app w) ++ [newUserMessage (app w) (now w)])%list
  /\ awaiting w' = awaiting w.
Proof.
  intros Hacc Hkey Htruthy Hedits w'. subst w'.
  rewrite !run_app.
  change (run env w [Send]) with (step env w Send).
  set (w1 := step env w Send).
  destruct (run_edits env edits w1 Hedits) as (E1 & E2 & E3 & E4 & E5 & E6).
  set (w2 := run env w1 edits) in *.
  assert (Hw1 : awaiting w1 = (awaiting w ++ [mkCall (messages (app w))
              (input (app w)) (attachedImages (app w)) (deviceContext (app w))
              (settings (app w))])%list
            /\ performed w1 = performed w
            /\ messages (app w1)
               = (messages (app w) ++ [newUserMessage (app w) (now w)])%list).
  { subst w1. rewrite (send_accepted env w Hacc). repeat split. }
  destruct Hw1 as (A1 & A2 & A3).
  change (run env w2 [Settle (List.length (awaiting w)) sdk])
    with (step env w2 (Settle (List.length (awaiting w)) sdk)).
  cbn [step]. rewrite E1, A1.
  rewrite nth_error_app2, Nat.sub_diag by lia. cbn [nth_error].
  cbn [call_history call_prompt call_images call_context call_settings].
  rewrite Hkey, generateOrionResponse_with_key by exact Htruthy.
  fold (pendingRequest (app w)).
  assert (Hremove : forall (l : list (@Call number)) c,
             removeNth (List.length l) (l ++ [c])%list = l).
  { induction l as [|x l IH]; intros c; simpl; [reflexivity | now rewrite IH]. }
  rewrite Hremove.
  split; [|split; [|split; [|split]]].
  - destruct (sdk key (pendingRequest (app w))) as [response|e]; simpl;
      rewrite E2, A2; eexists; (split; [reflexivity|]); simpl; intros again Hin.
    + exact Hin.
    + destruct Hin as [Hin | []]. discriminate Hin.
  - unfold pendingRequest, requestOf. simpl. unfold fullPrompt.
    now rewrite conversationContext_lines.
  - reflexivity.
  - destruct (sdk key (pendingRequest (app w))) as [response|e]; simpl;
      now rewrite E5, A3.
  - destruct (sdk key (pendingRequest (app w))) as [response|e]; reflexivity.
Qed.

(** ** Attachments, from the file input to the request *)

Lemma pageRun_app (env : Environment) (w : World) (first second : list PageEvent) :
  pageRun env w (first ++ second) = pageRun env (pageRun env w first) second.
Proof. apply fold_left_app. Qed.

Lemma endRead_permutation (dataUrl : string) (reading reading' : list string) :
  endRead dataUrl reading = Some reading' ->
  Permutation (dataUrl :: reading') reading.
Proof.
  revert reading'. induction reading as [|r rest IH]; intros reading' Hend;
    simpl in Hend; [discriminate|].
  destruct (String.eqb dataUrl r) eqn:Heq.
  - apply String.eqb_eq in Heq. inversion Hend; subst. reflexivity.
  - destruct (endRead dataUrl rest) as [rest'|]; [|discriminate].
    inversion Hend; subst.
    rewrite perm_swap. constructor. now apply IH.
Qed.

(** Every read that was started has ended or is still in flight. *)
Lemma readsInFlight_permutation (pes : list (@PageEvent number))
    (before after : list string) :
  readsInFlight before pes = Some after ->
  Permutation (endedReads pes ++ after)%list (before ++ startedReads pes)%list.
Proof.
  revert before. induction pes as [|pe pes IH]; intros before Hafter.
  - simpl in *. inversion Hafter; subst. now rewrite app_nil_r.
  - destruct pe; cbn [readsInFlight] in Hafter;
      try (exact (IH before Hafter)).
    + apply IH in Hafter.
      change (startedReads (FilesChosen files :: pes))
        with (handleFileUpload files ++ startedReads pes)%list.
      change (endedReads (FilesChosen files :: pes)) with (endedReads pes).
      rewrite <- app_assoc in Hafter. exact Hafter.
    + destruct (endRead dataUrl before) as [reading'|] eqn:Hend; [|discriminate].
      apply IH in Hafter. apply endRead_permutation in Hend.
      change (startedReads (ReadEnded dataUrl :: pes)) with (startedReads pes).
      change (endedReads (ReadEnded dataUrl :: pes))
        with (dataUrl :: endedReads pes).
      rewrite <- Hend. simpl. now constructor.
Qed.

(** The events of the file input change the pending attachments only, and
    only the end of a read adds to them. *)
Lemma uploads_attach (env : Environment) (pes : list PageEvent) (w : World) :
  forallb isUpload pes = true ->
  pageRun env w pes
  = mkWorld
      (mkApp (messages (app w)) (input (app w)) (orionState (app w))
         (settings (app w)) (isSettingsOpen (app w))
         (attachedImages (app w) ++ endedReads pes)%list
         (deviceContext (app w)))
      (now w) (timers w) (awaiting w) (performed w).
Proof.
  revert w. induction pes as [|pe pes IH]; intros w Hall.
  - simpl. rewrite app_nil_r. now destruct w as [[] ? ? ? ?].
  - simpl in Hall. apply andb_true_iff in Hall as [Hpe Hrest].
    change (pageRun env w (pe :: pes))
      with (pageRun env (pageStep env w pe) pes).
    rewrite (IH _ Hrest).
    destruct pe; try discriminate Hpe; simpl.
    + reflexivity.
    + now rewrite <- app_assoc.
Qed.

(** X3. An image is attached when the read of its file ends, not when the
    file is chosen. Of every selection only the first file is read. After
    any selections and ends of reads, the pending attachments are those
    before followed by the images whose reads have ended, in the order the
    reads ended; together with the reads still in flight they are the first
    files of the selections, each once; nothing else on the page has
    changed. The remove button of any attachment removes them all. An Enter
    key press sends the attachments there are, text or no text: the user
    message carries them, the awaited request holds one image part for each,
    in the same order, and the pending attachments are empty again; an
    image whose read ends after that is not in the message: it is pending
    for the next one. The reads are those that succeed. *)
Theorem attachments_life_cycle (env : Environment) (w : World)
    (pes : list PageEvent) (reading : list string) :
  forallb isUpload pes = true ->
  readsInFlight [] pes = Some reading ->
  let loaded := pageRun env w pes in
  let images := attachedImages (app loaded) in
  let sent := pageStep env loaded (KeyDown "Enter" false) in
  (forall files, handleFileUpload files = firstn 1 files)
  /\ images = (attachedImages (app w) ++ endedReads pes)%list
  /\ Permutation (endedReads pes ++ reading)%list (startedReads pes)
  /\ (messages (app loaded) = messages (app w)
      /\ input (app loaded) = input (app w)
      /\ orionState (app loaded) = orionState (app w)
      /\ awaiting loaded = awaiting w
      /\ performed loaded = performed w)
  /\ (forall index, index < List.length images ->
        attachedImages (app (pageStep env loaded (RemoveClicked index))) = [])
  /\ (images <> [] ->
      orionState (app w) <> OrionState.Thinking ->
      (exists m call,
         messages (app sent) = (messages (app w) ++ [m])%list
         /\ sender m = Sender.User
         /\ text m = input (app w)
         /\ attachments m = Some images
         /\ attachedImages (app sent) = []
         /\ orionState (app sent) = OrionState.Thinking
         /\ awaiting sent = (awaiting w ++ [call])%list
         /\ parts (callRequest call)
            = TextPart (fullPrompt (messages (app w)) (input (app w)))
              :: map imagePart images)
      /\ forall dataUrl,
           attachedImages (app (pageStep env sent (ReadEnded dataUrl))) = [dataUrl]
           /\ messages (app (pageStep env sent (ReadEnded dataUrl)))
              = messages (app sent)
           /\ awaiting (pageStep env sent (ReadEnded dataUrl)) = awaiting sent).
Proof.
  intros Hall Hreading loaded images sent.
  assert (Hloaded : loaded = mkWorld
            (mkApp (messages (app w)) (input (app w)) (orionState (app w))
               (settings (app w)) (isSettingsOpen (app w))
               (attachedImages (app w) ++ endedReads pes)%list
               (deviceContext (app w)))
            (now w) (timers w) (awaiting w) (performed w))
    by (subst loaded; now apply uploads_attach).
  assert (Himages : images = (attachedImages (app w) ++ endedReads pes)%list)
    by (subst images; now rewrite Hloaded).
  split; [now intros [|file files]|].
  split; [exact Himages|].
  split; [exact (readsInFlight_permutation pes [] reading Hreading)|].
  split; [now rewrite Hloaded|].
  split.
  - intros index Hindex. unfold pageStep, pageEvents.
    fold images. apply Nat.ltb_lt in Hindex. now rewrite Hindex.
  - intros Hsome Hstate.
    assert (Hacc : sendAccepted (app loaded) = true).
    { apply sendAccepted_iff. split; [now rewrite Hloaded | now right]. }
    assert (Hsent : sent = step env loaded Send) by reflexivity.
    rewrite Hsent, (send_accepted env loaded Hacc), Himages, Hloaded. simpl.
    split; [eexists; eexists; repeat split | now intros dataUrl].
Qed.

(** ** No state without a way out *)

Lemma insertTimer_Forall (P : Z * TimerTask -> Prop) (deadline : Z)
    (task : TimerTask) (ts : list (Z * TimerTask)) :
  P (deadline, task) -> Forall P ts -> Forall P (insertTimer deadline task ts).
Proof.
  intros Hnew. induction ts as [|[d t] ts IH]; intros Hts; simpl.
  - now constructor.
  - inversion Hts as [|x l Hx Hl]; subst.
    destruct (d <=? deadline)%Z; constructor; auto.
Qed.

Lemma insertTimer_existsb (f : Z * TimerTask -> bool) (deadline : Z)
    (task : TimerTask) (ts : list (Z * TimerTask)) :
  existsb f (insertTimer deadline task ts) = f (deadline, task) || existsb f ts.
Proof.
  induction ts as [|[d t] ts IH]; simpl; [reflexivity|].
  destruct (d <=? deadline)%Z; simpl; [|reflexivity].
  rewrite IH. now destruct (f (d, t)), (f (deadline, task)).
Qed.

Lemma fireDue_Forall (P : Z * TimerTask -> Prop) (limit : Z)
    (ts : list (Z * TimerTask)) (a : AppState) :
  Forall P ts -> Forall P (snd (fireDue limit ts a)).
Proof.
  revert a. induction ts as [|[d task] ts IH]; intros a Hts; simpl; [constructor|].
  inversion Hts as [|x l Hx Hl]; subst.
  destruct (d <=? limit)%Z; [now apply IH | exact Hts].
Qed.

Lemma fireDue_exits (limit : Z) (ts : list (Z * TimerTask)) (a : AppState) :
  orionState (fst (fireDue limit ts a)) = OrionState.Idle
  \/ (orionState (fst (fireDue limit ts a)) = orionState a
      /\ existsb setsIdle (snd (fireDue limit ts a)) = existsb setsIdle ts).
Proof.
  revert a. induction ts as [|[d task] ts IH]; intros a; simpl; [now right|].
  destruct (d <=? limit)%Z; [|now right].
  destruct (IH (applyUpdates a (runTask task d))) as [Hidle | [Hsame Hexits]];
    [now left|].
  destruct task; simpl in *.
  - right. split; assumption.
  - left. exact Hsame.
  - left. exact Hsame.
Qed.

Lemma step_exitsPending (env : Environment) (w : World) (ev : Event) :
  exitsPending w -> exitsPending (step env w ev).
Proof.
  intros (Hthinking & Hexit & Hdue).
  destruct ev; try (now repeat split).
  - (* Send *)
    simpl. unfold handleSendMessage.
    destruct (sendAccepted (app w)); simpl; [|now repeat split].
    repeat split; simpl.
    + intros _. now destruct (awaiting w).
    + intros [Hs | Hs]; discriminate Hs.
    + exact Hdue.
  - (* Settle *)
    simpl. destruct (nth_error (awaiting w) n) as [c|]; [|now repeat split].
    destruct (generateOrionResponse _ _ _ _ _ _ _) as [[responseText|e] effects];
      simpl; (repeat split; simpl;
              [ discriminate
              | intros _; now rewrite insertTimer_existsb
              | apply insertTimer_Forall; [simpl; lia | exact Hdue] ]).
  - (* Elapse *)
    simpl.
    pose proof (fireDue_exits (now w + Z.of_N ms) (timers w) (app w)) as Hfire.
    pose proof (fireDue_Forall _ (now w + Z.of_N ms) (timers w) (app w) Hdue)
      as Hrest.
    assert (Hawait : forall limit ts (a : AppState),
               orionState (fst (fireDue limit ts a)) = OrionState.Thinking ->
               orionState a = OrionState.Thinking).
    { intros limit ts a Hs.
      destruct (fireDue_exits limit ts a) as [Hidle | [Hsame _]]; congruence. }
    specialize (Hawait (now w + Z.of_N ms)%Z (timers w) (app w)).
    destruct (fireDue (now w + Z.of_N ms) (timers w) (app w)) as [a ts].
    simpl in *. repeat split; simpl.
    + intros Hs. apply Hthinking, Hawait, Hs.
    + intros Hs. destruct Hfire as [Hidle | [Hsame Hexits]].
      * destruct Hs as [Hs | Hs]; congruence.
      * rewrite Hexits. apply Hexit. now rewrite <- Hsame.
    + eapply Forall_impl; [|exact Hrest]. simpl. intros timer Ht. lia.
Qed.

Lemma run_exitsPending (env : Environment) (events : list Event) (w : World) :
  exitsPending w -> exitsPending (run env w events).
Proof.
  revert w. induction events as [|ev events IH]; intros w Hw; simpl; [exact Hw|].
  apply IH, step_exitsPending, Hw.
Qed.

Lemma initial_exitsPending (env : Environment) (start : Z) (localeTime : string) :
  exitsPending (initialWorld (number := number) env start localeTime).
Proof.
  repeat split; simpl; try discriminate.
  - intros [Hs | Hs]; discriminate Hs.
  - constructor; [simpl; lia | constructor].
Qed.

(** X4. In every state the page can reach, the session is never Thinking
    without a gateway call awaited, and never Responding or in Error
    without a pending timer that will set it Idle; and every pending timer
    is due within 3000 ms. *)
Theorem no_state_without_exit (env : Environment) (start : Z) (localeTime : string)
    (events : list Event) :
  let w := run env (initialWorld env start localeTime) events in
  (orionState (app w) = OrionState.Thinking ->
     exists call, In call (awaiting w))
  /\ (orionState (app w) = OrionState.Responding
      \/ orionState (app w) = OrionState.Error ->
      exists deadline task,
        In (deadline, task) (timers w)
        /\ (deadline <= now w + 3000)%Z
        /\ forall a : AppState,
             orionState (applyUpdates a (runTask task deadline)) = OrionState.Idle)
  /\ Forall (fun timer => (fst timer <= now w + 3000)%Z) (timers w).
Proof.
  intros w.
  destruct (run_exitsPending env events _ (initial_exitsPending env start localeTime))
    as (Hthinking & Hexit & Hdue).
  fold w in Hthinking, Hexit, Hdue.
  split; [|split; [|exact Hdue]].
  - intros Hs. specialize (Hthinking Hs).
    destruct (awaiting w) as [|call rest]; [congruence|].
    exists call. now left.
  - intros Hs. specialize (Hexit Hs).
    apply existsb_exists in Hexit as [[deadline task] [Hin Hsets]].
    exists deadline, task. split; [exact Hin|]. split.
    + rewrite Forall_forall in Hdue. apply (Hdue _ Hin).
    + intros a. destruct task; [discriminate Hsets | reflexivity | reflexivity].
Qed.

Lemma fireDue_all (limit : Z) (ts : list (Z * TimerTask)) (a : AppState) :
  Forall (fun timer => (fst timer <= limit)%Z) ts ->
  snd (fireDue limit ts a) = []
  /\ (existsb setsIdle ts = true ->
      orionState (fst (fireDue limit ts a)) = OrionState.Idle).
Proof.
  revert a. induction ts as [|[d task] ts IH]; intros a Hts; simpl.
  - split; [reflexivity | discriminate].
  - inversion Hts as [|x l Hx Hl]; subst. simpl in Hx.
    apply Z.leb_le in Hx. rewrite Hx.
    destruct (IH (applyUpdates a (runTask task d)) Hl) as [Hnil Hidle].
    split; [exact Hnil|].
    intros Hexit.
    destruct (fireDue_exits limit ts (applyUpdates a (runTask task d)))
      as [Hdone | [Hsame Hexits]]; [exact Hdone|].
    destruct task; simpl in *.
    + now apply Hidle.
    + exact Hsame.
    + exact Hsame.
Qed.

(** X5. From any state the page can reach in which the session is Responding
    or in Error, 3000 ms without any other event (or any longer time) bring
    the session back to Idle, with no timer left to fire. *)
Theorem idle_again_within_3000 (env : Environment) (start : Z) (localeTime : string)
    (events : list Event) (ms : N) :
  let w := run env (initialWorld env start localeTime) events in
  orionState (app w) = OrionState.Responding
  \/ orionState (app w) = OrionState.Error ->
  (3000 <= ms)%N ->
  orionState (app (step env w (Elapse ms))) = OrionState.Idle
  /\ timers (step env w (Elapse ms)) = [].
Proof.
  intros w Hs Hms.
  destruct (run_exitsPending env events _ (initial_exitsPending env start localeTime))
    as (_ & Hexit & Hdue).
  fold w in Hexit, Hdue. specialize (Hexit Hs).
  assert (Hall : Forall (fun timer => (fst timer <= now w + Z.of_N ms)%Z) (timers w)).
  { eapply Forall_impl; [|exact Hdue]. simpl. intros timer Ht. lia. }
  destruct (fireDue_all (now w + Z.of_N ms) (timers w) (app w) Hall) as [Hnil Hidle].
  simpl. destruct (fireDue (now w + Z.of_N ms) (timers w) (app w)) as [a ts].
  simpl in *. split; [now apply Hidle | exact Hnil].
Qed.

(** ** Thinking is no lock *)

Lemma failingSdk_throws (API_KEY : option string) (history : list Message)
    (currentPrompt : string) (images : list string)
    (context : DeviceContext number) (settings : OrionSettings) :
  exists e effects,
    generateOrionResponse API_KEY failingSdk history currentPrompt images
      context settings = (Thrown e, effects).
Proof.
  destruct API_KEY as [key|]; [|now eexists; eexists].
  destruct (truthy key) eqn:Hkey.
  - rewrite generateOrionResponse_with_key by exact Hkey.
    now eexists; eexists.
  - unfold generateOrionResponse. rewrite Hkey. now eexists; eexists.
Qed.

Lemma settle_failing (env : Environment) (w : World) (n : nat) (c : @Call number) :
  nth_error (awaiting w) n = Some c ->
  orionState (app (step env w (Settle n failingSdk))) = OrionState.Error
  /\ awaiting (step env w (Settle n failingSdk)) = removeNth n (awaiting w).
Proof.
  intros Hn. simpl. rewrite Hn.
  destruct (failingSdk_throws (API_KEY env) (call_history c) (call_prompt c)
              (call_images c) (call_context c) (call_settings c))
    as (e & effects & ->).
  now split.
Qed.

Lemma typed_then_sent (env : Environment) (w : World) (value : string) :
  orionState (app w) <> OrionState.Thinking ->
  allWhiteSpace value = false ->
  exists call,
    awaiting (run env w [TypeInput value; Send]) = (awaiting w ++ [call])%list
    /\ orionState (app (run env w [TypeInput value; Send])) = OrionState.Thinking
    /\ timers (run env w [TypeInput value; Send]) = timers w
    /\ now (run env w [TypeInput value; Send]) = now w.
Proof.
  intros Hstate Hvalue.
  change (run env w [TypeInput value; Send])
    with (step env (step env w (TypeInput value)) Send).
  assert (Hacc : sendAccepted (app (step env w (TypeInput value))) = true).
  { apply sendAccepted_iff. simpl. split; [exact Hstate|].
    left. now rewrite truthy_trim, Hvalue. }
  rewrite (send_accepted env _ Hacc). simpl.
  eexists. repeat split.
Qed.

Lemma one_more_call (env : Environment) (w : World) :
  exitsPending w ->
  orionState (app w) = OrionState.Error ->
  let again : list Event :=
    ([TypeInput "retry"; Send]
     ++ [Elapse 3000]
     ++ [TypeInput "retry"; Send]
     ++ [Settle (S (List.length (awaiting w))) failingSdk])%list in
  orionState (app (run env w again)) = OrionState.Error
  /\ List.length (awaiting (run env w again)) = S (List.length (awaiting w)).
Proof.
  intros (_ & Hexit & Hdue) Herror again. subst again.
  rewrite !run_app.
  destruct (typed_then_sent env w "retry") as (c1 & A1 & S1 & T1 & N1);
    [congruence | reflexivity |].
  set (w1 := run env w [TypeInput "retry"; Send]) in *. clearbody w1.
  assert (Hw2 : orionState (app (run env w1 [Elapse 3000])) = OrionState.Idle
                /\ awaiting (run env w1 [Elapse 3000]) = awaiting w1).
  { change (run env w1 [Elapse 3000]) with (step env w1 (Elapse 3000)).
    simpl. rewrite T1, N1.
    destruct (fireDue_all (now w + 3000) (timers w) (app w1) Hdue)
      as [_ Hidle].
    destruct (fireDue (now w + 3000) (timers w) (app w1)) as [a ts].
    simpl in *. split; [|reflexivity].
    apply Hidle, Hexit. now right. }
  destruct Hw2 as [S2 A2].
  set (w2 := run env w1 [Elapse 3000]) in *. clearbody w2.
  destruct (typed_then_sent env w2 "retry") as (c2 & A3 & S3 & T3 & N3);
    [congruence | reflexivity |].
  set (w3 := run env w2 [TypeInput "retry"; Send]) in *. clearbody w3.
  change (run env w3 [Settle (S (List.length (awaiting w))) failingSdk])
    with (step env w3 (Settle (S (List.length (awaiting w))) failingSdk)).
  assert (Hnth : nth_error (awaiting w3) (S (List.length (awaiting w))) = Some c2).
  { rewrite A3, A2, A1.
    assert (Hlen : List.length (awaiting w ++ [c1])%list = S (List.length (awaiting w)))
      by (rewrite length_app; cbn [List.length]; lia).
    rewrite nth_error_app2 by lia.
    replace (S (List.length (awaiting w)) - List.length (awaiting w ++ [c1])%list)
      with 0 by lia.
    reflexivity. }
  destruct (settle_failing env w3 _ c2 Hnth) as [S4 A4].
  split; [exact S4|].
  rewrite A4, A3, A2, A1.
  assert (Hlen : List.length (awaiting w ++ [c1])%list = S (List.length (awaiting w)))
    by (rewrite length_app; cbn [List.length]; lia).
  rewrite <- Hlen at 1. rewrite removeNth_last. exact Hlen.
Qed.

(** X6. The Thinking state does not keep the gateway calls apart. With a
    credential configured, a reset timer that an earlier failure of the
    service left behind sets the session Idle while a later call is still
    awaited, and the next send is accepted: for every number there is a
    state the page can reach in which the session is Thinking with more than
    that number of calls awaited at once, every one of them a request to
    the service, whatever the service makes of it. *)
Theorem calls_pile_up (env : Environment) (key : string) (start : Z)
    (localeTime : string) (n : nat) :
  API_KEY env = Some key ->
  truthy key = true ->
  exists events,
    let w := run env (initialWorld env start localeTime) events in
    orionState (app w) = OrionState.Thinking
    /\ List.length (awaiting w) = S n
    /\ Forall (fun c =>
                 forall sdk, exists effects,
                   snd (generateOrionResponse (API_KEY env) sdk
                          (call_history c) (call_prompt c) (call_images c)
                          (call_context c) (call_settings c))
                   = GenerateContent (callRequest c) :: effects)
         (awaiting w).
Proof.
  intros Hkey Htruthy.
  assert (Herror : exists events,
             let w := run env (initialWorld env start localeTime) events in
             orionState (app w) = OrionState.Error
             /\ List.length (awaiting w) = n).
  { induction n as [|n [events [Hstate Hlen]]].
    - exists ([TypeInput "retry"; Send] ++ [Settle 0 failingSdk])%list.
      cbv zeta. rewrite run_app.
      destruct (typed_then_sent env (initialWorld env start localeTime) "retry")
        as (c & A & _); [discriminate | reflexivity |].
      set (w1 := run env _ [TypeInput "retry"; Send]) in *. clearbody w1.
      change (run env w1 [Settle 0 failingSdk])
        with (step env w1 (Settle 0 failingSdk)).
      destruct (settle_failing env w1 0 c) as [S1 A1]; [now rewrite A|].
      split; [exact S1 | now rewrite A1, A].
    - eexists (events ++ _)%list. cbv zeta. rewrite run_app.
      pose proof (one_more_call env
                    (run env (initialWorld env start localeTime) events)
                    (run_exitsPending env events _
                       (initial_exitsPending env start localeTime))
                    Hstate) as [S1 A1].
      split; [exact S1 | now rewrite A1, Hlen]. }
  destruct Herror as [events [Hstate Hlen]].
  exists (events ++ [TypeInput "retry"; Send])%list.
  cbv zeta. rewrite run_app.
  destruct (typed_then_sent env
              (run env (initialWorld env start localeTime) events) "retry")
    as (c & A & S1 & _); [congruence | reflexivity |].
  split; [exact S1|].
  split; [rewrite A, length_app, Hlen; simpl; lia|].
  apply Forall_forall. intros c' _ sdk.
  rewrite Hkey, generateOrionResponse_with_key by exact Htruthy.
  fold (callRequest c').
  destruct (sdk key (callRequest c')); now eexists.
Qed.

(** ** The timers and the greeting *)

Lemma insertTimer_sorted (deadline : Z) (task : TimerTask)
    (ts : list (Z * TimerTask)) :
  StronglySorted (fun earlier later => (fst earlier <= fst later)%Z) ts ->
  StronglySorted (fun earlier later => (fst earlier <= fst later)%Z)
    (insertTimer deadline task ts).
Proof.
  induction ts as [|[d t] ts IH]; intros Hsorted; simpl.
  - constructor; constructor.
  - inversion Hsorted as [|x l Hl Hx]; subst.
    destruct (d <=? deadline)%Z eqn:Hd.
    + constructor; [now apply IH|].
      apply insertTimer_Forall; [|exact Hx].
      simpl. now apply Z.leb_le.
    + apply Z.leb_gt in Hd. constructor; [exact Hsorted|].
      constructor; [simpl; lia|].
      eapply Forall_impl; [|exact Hx]. simpl. intros timer Ht. lia.
Qed.

Lemma fireDue_sorted (limit : Z) (ts : list (Z * TimerTask)) (a : AppState) :
  StronglySorted (fun earlier later => (fst earlier <= fst later)%Z) ts ->
  StronglySorted (fun earlier later => (fst earlier <= fst later)%Z)
    (snd (fireDue limit ts a))
  /\ Forall (fun timer => (limit < fst timer)%Z) (snd (fireDue limit ts a)).
Proof.
  revert a. induction ts as [|[d task] ts IH]; intros a Hsorted; simpl.
  - split; constructor.
  - inversion Hsorted as [|x l Hl Hx]; subst.
    destruct (d <=? limit)%Z eqn:Hd; [now apply IH|].
    apply Z.leb_gt in Hd. split; [exact Hsorted|].
    constructor; [exact Hd|].
    eapply Forall_impl; [|exact Hx]. simpl. intros timer Ht. lia.
Qed.

Lemma step_timersAhead (env : Environment) (w : World) (ev : Event) :
  timersAhead w -> timersAhead (step env w ev).
Proof.
  intros [Hsorted Hahead].
  destruct ev; try (now split).
  - simpl. unfold handleSendMessage.
    destruct (sendAccepted (app w)); now split.
  - simpl. destruct (nth_error (awaiting w) n) as [c|]; [|now split].
    destruct (generateOrionResponse _ _ _ _ _ _ _) as [[responseText|e] effects];
      simpl; (split; simpl;
              [ now apply insertTimer_sorted
              | apply insertTimer_Forall; [simpl; lia | exact Hahead] ]).
  - simpl.
    pose proof (fireDue_sorted (now w + Z.of_N ms) (timers w) (app w) Hsorted)
      as [Hs Ha].
    destruct (fireDue (now w + Z.of_N ms) (timers w) (app w)) as [a ts].
    now split.
Qed.

Lemma fireDue_keeps (limit : Z) (ts : list (Z * TimerTask)) (a : AppState)
    (timer : Z * TimerTask) :
  In timer ts -> (limit < fst timer)%Z -> In timer (snd (fireDue limit ts a)).
Proof.
  revert a. induction ts as [|[d task] ts IH]; intros a Hin Hlate; simpl;
    [exact Hin|].
  destruct (d <=? limit)%Z eqn:Hd; [|exact Hin].
  destruct Hin as [<- | Hin]; [|now apply IH].
  apply Z.leb_le in Hd. simpl in Hlate. lia.
Qed.

Lemma greeting_message (d : Z) :
  isGreetingMessage (mkMessage "init-1" INITIAL_GREETING Sender.Orion d None).
Proof. now repeat split. Qed.

Lemma fireDue_greeting (limit : Z) (ts : list (Z * TimerTask)) (a : AppState) :
  existsb (fun timer => isGreeting (snd timer)) ts = true ->
  existsb (fun timer => isGreeting (snd timer)) (snd (fireDue limit ts a)) = false ->
  exists greeting later,
    messages (fst (fireDue limit ts a)) = greeting :: later
    /\ isGreetingMessage greeting.
Proof.
  revert a. induction ts as [|[d task] ts IH]; intros a Hsome Hnone;
    [discriminate|].
  simpl in *. destruct (d <=? limit)%Z; [|simpl in Hnone; congruence].
  destruct (existsb (fun timer => isGreeting (snd timer)) ts) eqn:Hrest.
  - now apply IH.
  - destruct task; simpl in Hsome; try discriminate.
    destruct (fireDue_append_only limit ts
                (applyUpdates a (runTask BootGreeting d)) Hrest)
      as [[suffix Hs] _].
    rewrite Hs. simpl. eexists; eexists. split; [reflexivity|].
    apply greeting_message.
Qed.

Lemma step_now (env : Environment) (w : World) (ev : Event) :
  (now w <= now (step env w ev))%Z.
Proof.
  destruct ev; simpl; try lia.
  - unfold handleSendMessage. destruct (sendAccepted (app w)); simpl; lia.
  - destruct (nth_error (awaiting w) n) as [c|]; [|lia].
    destruct (generateOrionResponse _ _ _ _ _ _ _) as [[responseText|e] effects];
      simpl; lia.
  - destruct (fireDue _ _ _). simpl. lia.
Qed.

Lemma step_greetingShown (env : Environment) (start : Z) (w : World) (ev : Event) :
  timersAhead w -> greetingShown start w -> greetingShown start (step env w ev).
Proof.
  intros [Hsorted Hahead] [Hdeadline Hcase]. split.
  - (* the greeting's deadline *)
    destruct ev; try exact Hdeadline; simpl.
    + unfold handleSendMessage. destruct (sendAccepted (app w)); exact Hdeadline.
    + destruct (nth_error (awaiting w) n) as [c|]; [|exact Hdeadline].
      destruct (generateOrionResponse _ _ _ _ _ _ _) as [[responseText|e] effects];
        simpl; (apply insertTimer_Forall; [discriminate | exact Hdeadline]).
    + pose proof (fireDue_Forall _ (now w + Z.of_N ms) (timers w) (app w) Hdeadline)
        as Hrest.
      destruct (fireDue _ _ _). exact Hrest.
  - destruct Hcase as [[Hpending Hearly] | (Hdone & Hlate & greeting & later & Hm & Hg)].
    + (* still pending before the step *)
      unfold greetingPending in *.
      destruct ev; try (left; now split).
      * left. simpl. unfold handleSendMessage.
        destruct (sendAccepted (app w)); now split.
      * left. simpl. destruct (nth_error (awaiting w) n) as [c|]; [|now split].
        destruct (generateOrionResponse _ _ _ _ _ _ _)
          as [[responseText|e] effects]; simpl;
          (split; [rewrite insertTimer_existsb, Hpending; apply orb_true_r
                  | exact Hearly]).
      * apply existsb_exists in Hpending as [[d task] [Hin Htask]].
        rewrite Forall_forall in Hdeadline.
        pose proof (Hdeadline _ Hin Htask) as Hd. simpl in Hd, Htask. subst d.
        simpl.
        pose proof (fireDue_keeps (now w + Z.of_N ms) (timers w) (app w) _ Hin)
          as Hkeeps.
        pose proof (fireDue_sorted (now w + Z.of_N ms) (timers w) (app w) Hsorted)
          as [_ Hafter].
        pose proof (fireDue_Forall _ (now w + Z.of_N ms) (timers w) (app w)
                      (proj2 (Forall_forall _ _) Hdeadline)) as Hstill.
        pose proof (fireDue_greeting (now w + Z.of_N ms) (timers w) (app w))
          as Hfired.
        destruct (fireDue (now w + Z.of_N ms) (timers w) (app w)) as [a ts].
        simpl in *.
        destruct (Z.ltb_spec (now w + Z.of_N ms) (start + 1000)) as [Hnot | Hdue].
        -- left. split; [|exact Hnot].
           apply existsb_exists. exists (start + 1000, task)%Z.
           split; [now apply Hkeeps | exact Htask].
        -- right.
           assert (Hnone : existsb (fun timer => isGreeting (snd timer)) ts = false).
           { destruct (existsb (fun timer => isGreeting (snd timer)) ts) eqn:Hts;
               [|reflexivity].
             apply existsb_exists in Hts as [[d' task'] [Hin' Htask']].
             rewrite Forall_forall in Hstill, Hafter.
             pose proof (Hstill _ Hin' Htask') as Hd'.
             pose proof (Hafter _ Hin') as Hl'. simpl in *. lia. }
           split; [exact Hnone|]. split; [exact Hdue|].
           apply Hfired; [|exact Hnone].
           apply existsb_exists. exists (start + 1000, task)%Z. now split.
    + (* already shown *)
      right.
      destruct (step_append_only env w ev Hdone) as [[suffix Hs] Hstill].
      split; [exact Hstill|]. split.
      * pose proof (step_now env w ev). lia.
      * exists greeting, (later ++ suffix)%list.
        split; [now rewrite Hs, Hm | exact Hg].
Qed.

Lemma run_greetingShown (env : Environment) (start : Z) (events : list Event)
    (w : World) :
  timersAhead w -> greetingShown start w ->
  timersAhead (run env w events) /\ greetingShown start (run env w events).
Proof.
  revert w. induction events as [|ev events IH]; intros w Ha Hg; simpl;
    [now split|].
  apply IH; [now apply step_timersAhead | now apply step_greetingShown].
Qed.

(** X7. For every state the page can reach: as long as less than 1000 ms have
    passed since the mount the greeting is still pending, and from then on
    it has been shown and the transcript starts with it, whatever was sent
    or answered before. *)
Theorem greeting_after_one_second (env : Environment) (start : Z)
    (localeTime : string) (events : list Event) :
  let w := run env (initialWorld env start localeTime) events in
  ((now w < start + 1000)%Z -> greetingPending w = true)
  /\ ((start + 1000 <= now w)%Z ->
      greetingPending w = false
      /\ exists greeting later,
           messages (app w) = greeting :: later
           /\ isGreetingMessage greeting).
Proof.
  intros w.
  assert (Hinit : timersAhead (initialWorld (number := number) env start localeTime)
                  /\ greetingShown start
                       (initialWorld (number := number) env start localeTime)).
  { split; [split | split]; simpl.
    - repeat constructor.
    - constructor; [simpl; lia | constructor].
    - constructor; [now simpl | constructor].
    - left. split; [reflexivity | simpl; lia]. }
  destruct (run_greetingShown env start events _ (proj1 Hinit) (proj2 Hinit))
    as [_ [_ Hcase]].
  fold w in Hcase.
  destruct Hcase as [[Hpending Hearly] | (Hdone & Hlate & Hshown)].
  - split; [now intros _ | intros Hno; lia].
  - split; [intros Hno; lia | now intros _].
Qed.

(** ** Orion never shows an empty message *)

Lemma fireDue_neverSilent (limit : Z) (ts : list (Z * TimerTask)) (a : AppState) :
  Forall (fun m => sender m = Sender.Orion -> truthy (text m) = true) (messages a) ->
  Forall (fun timer =>
            match snd timer with
            | ShowResponse responseText => truthy responseText = true
            | _ => True
            end) ts ->
  Forall (fun m => sender m = Sender.Orion -> truthy (text m) = true)
    (messages (fst (fireDue limit ts a)))
  /\ Forall (fun timer =>
               match snd timer with
               | ShowResponse responseText => truthy responseText = true
               | _ => True
               end) (snd (fireDue limit ts a)).
Proof.
  revert a. induction ts as [|[d task] ts IH]; intros a Hm Hts; simpl;
    [now split|].
  inversion Hts as [|x l Hx Hl]; subst. simpl in Hx.
  destruct (d <=? limit)%Z; [|now split].
  apply IH; [|exact Hl].
  destruct task; simpl.
  - constructor; [now intros _ | constructor].
  - apply Forall_app. split; [exact Hm|].
    constructor; [now intros _ | constructor].
  - exact Hm.
Qed.

Lemma step_neverSilent (env : Environment) (w : World) (ev : Event) :
  neverSilent w -> neverSilent (step env w ev).
Proof.
  intros [Hm Hts].
  destruct ev; try (now split).
  - simpl. unfold handleSendMessage.
    destruct (sendAccepted (app w)); simpl; [|now split].
    split; [|exact Hts]. simpl.
    apply Forall_app. split; [exact Hm|].
    constructor; [discriminate | constructor].
  - simpl. destruct (nth_error (awaiting w) n) as [c|]; [|now split].
    destruct (generateOrionResponse_cases (API_KEY env) sdk (call_history c)
                (call_prompt c) (call_images c) (call_context c) (call_settings c))
      as [-> | [(r & Hr & ->) | (e & ->)]]; simpl;
      (split; [exact Hm|]); simpl;
      (apply insertTimer_Forall; [simpl; auto | exact Hts]).
  - simpl.
    pose proof (fireDue_neverSilent (now w + Z.of_N ms) (timers w) (app w) Hm Hts)
      as Hfire.
    destruct (fireDue _ _ _). exact Hfire.
Qed.

(** X10. In every state the page can reach, every message of Orion in the
    transcript has a text that is not empty: the greeting, an answer of the
    service, or the fallback sentence in place of an empty answer. *)
Theorem orion_is_never_silent (env : Environment) (start : Z) (localeTime : string)
    (events : list Event) :
  Forall (fun m => sender m = Sender.Orion -> truthy (text m) = true)
    (messages (app (run env (initialWorld env start localeTime) events))).
Proof.
  assert (Hrun : forall (evs : list Event) (w : World),
             neverSilent w -> neverSilent (run env w evs)).
  { induction evs as [|ev evs IH]; intros w Hw; simpl; [exact Hw|].
    apply IH, step_neverSilent, Hw. }
  apply Hrun. split; simpl; repeat constructor.
Qed.

(** ** No location ever leaves the page *)

Lemma startsWith_same_prefix (a x y : string) :
  startsWith (a ++ x) (a ++ y) = startsWith x y.
Proof.
  induction a as [|c a IH]; simpl; [reflexivity|].
  now rewrite Ascii.eqb_refl.
Qed.

Lemma occurs_startsWith (p s : string) : startsWith s p = true -> occurs p s = true.
Proof. intros Hs. destruct s; simpl; now rewrite Hs. Qed.

(** The block of the instruction around the place of the location line: the
    platform line, a line of indentation only, an empty line and the next
    heading. *)
Lemma location_line_blank (context : DeviceContext number) (settings : OrionSettings) :
  geolocation context = None ->
  occurs ("    - Platform: " ++ platform context ++ nl ++ "    " ++ nl ++ nl
          ++ "    Capabilities:")
    (getSystemInstruction context settings) = true.
Proof.
  intros Hnone. unfold getSystemInstruction, locationText. rewrite Hnone.
  do 29 apply occurs_later.
  apply occurs_startsWith.
  rewrite !startsWith_same_prefix.
  reflexivity.
Qed.

Lemma removeNth_Forall {A : Type} (P : A -> Prop) (n : nat) (l : list A) :
  Forall P l -> Forall P (removeNth n l).
Proof.
  revert n. induction l as [|x l IH]; intros n Hl; destruct n; simpl;
    try exact Hl; inversion Hl; subst; try assumption.
  constructor; auto.
Qed.

Lemma step_noLocation (env : Environment) (w : World) (ev : Event) :
  match ev with
  | ContextChanged f => exists o, f = observe o
  | _ => True
  end ->
  noLocation env w -> noLocation env (step env w ev).
Proof.
  intros Hev ([Hgeo Hplatform] & Hawait & Hsent).
  destruct ev; try (now repeat split).
  - (* an observer *)
    destruct Hev as [o ->]. simpl.
    repeat split; try assumption; now destruct o.
  - (* Send *)
    simpl. unfold handleSendMessage.
    destruct (sendAccepted (app w)); simpl; [|now repeat split].
    repeat split; try assumption. simpl.
    apply Forall_app. split; [exact Hawait|].
    constructor; [now split | constructor].
  - (* Settle *)
    simpl. destruct (nth_error (awaiting w) n) as [c|] eqn:Hc;
      [|now repeat split].
    assert (Hcall : geolocation (call_context c) = None
                    /\ platform (call_context c) = navigator_platform env).
    { rewrite Forall_forall in Hawait. apply Hawait.
      eapply nth_error_In, Hc. }
    assert (Hrequest : exists context settings,
               geolocation context = None
               /\ platform context = navigator_platform env
               /\ systemInstruction
                    (requestOf (call_history c) (call_prompt c) (call_images c)
                       (call_context c) (call_settings c))
                  = getSystemInstruction context settings).
    { exists (call_context c), (call_settings c). now repeat split. }
    destruct (generateOrionResponse_cases (API_KEY env) sdk (call_history c)
                (call_prompt c) (call_images c) (call_context c) (call_settings c))
      as [-> | [(r & Hr & ->) | (e & ->)]]; simpl;
      (repeat split; try assumption; simpl;
       [ now apply removeNth_Forall
       | apply Forall_app; split; [exact Hsent|]; repeat constructor; assumption ]).
  - (* Elapse *)
    simpl.
    assert (Hfire : forall limit ts (a : AppState),
               deviceContext (fst (fireDue limit ts a)) = deviceContext a).
    { intros limit ts. induction ts as [|[d task] ts IH]; intros a; simpl;
        [reflexivity|].
      destruct (d <=? limit)%Z; [|reflexivity].
      rewrite IH. now destruct task. }
    specialize (Hfire (now w + Z.of_N ms)%Z (timers w) (app w)).
    destruct (fireDue _ _ _) as [a ts]. simpl in *.
    repeat split; simpl; rewrite ?Hfire; assumption.
Qed.

Lemma pageEvents_observed (w : World) (pe : PageEvent) :
  Forall (fun ev => match ev with
                    | ContextChanged f => exists o, f = observe o
                    | _ => True
                    end) (pageEvents w pe).
Proof.
  destruct pe; simpl; repeat constructor.
  - unfold handleKeyPress.
    destruct (String.eqb key "Enter" && negb shiftKey); repeat constructor.
  - destruct (Nat.ltb index _); repeat constructor.
  - now exists o.
Qed.

Lemma pageStep_noLocation (env : Environment) (w : World) (pe : PageEvent) :
  noLocation env w -> noLocation env (pageStep env w pe).
Proof.
  intros Hw. unfold pageStep.
  pose proof (pageEvents_observed w pe) as Hobserved.
  revert Hobserved. generalize (pageEvents w pe) as events.
  intros events. revert w Hw.
  induction events as [|ev events IH]; intros w Hw Hall; simpl; [exact Hw|].
  inversion Hall; subst. apply IH; [now apply step_noLocation | assumption].
Qed.

(** X11. Whatever the user and the platform do, by the handlers and observers
    the page has, no location is ever known or sent: the device context
    never holds a geolocation and keeps the platform of the mount, and in
    every request made to the service the system instruction is rendered
    from such a context; where the location line would stand, after the
    platform line, it has a line of indentation only. *)
Theorem location_is_never_sent (env : Environment) (start : Z)
    (localeTime : string) (pes : list PageEvent) :
  let w := pageRun env (initialWorld env start localeTime) pes in
  geolocation (deviceContext (app w)) = None
  /\ platform (deviceContext (app w)) = navigator_platform env
  /\ Forall (fun e =>
               match e with
               | GenerateContent request =>
                   (exists context settings,
                      geolocation context = None
                      /\ platform context = navigator_platform env
                      /\ systemInstruction request
                         = getSystemInstruction context settings)
                   /\ occurs ("    - Platform: " ++ navigator_platform env ++ nl
                              ++ "    " ++ nl ++ nl ++ "    Capabilities:")
                        (systemInstruction request) = true
               | ConsoleError _ _ => True
               end)
       (performed w).
Proof.
  intros w.
  assert (Hrun : forall (l : list PageEvent) (w0 : World),
             noLocation env w0 -> noLocation env (pageRun env w0 l)).
  { induction l as [|pe l IH]; intros w0 Hw0; simpl; [exact Hw0|].
    apply IH, pageStep_noLocation, Hw0. }
  assert (Hinit : noLocation env (initialWorld (number := number) env start localeTime))
    by (repeat split; constructor).
  destruct (Hrun pes _ Hinit) as ([Hgeo Hplatform] & _ & Hsent).
  fold w in Hgeo, Hplatform, Hsent.
  split; [exact Hgeo|]. split; [exact Hplatform|].
  eapply Forall_impl; [|exact Hsent].
  intros [request|label e]; [|trivial].
  intros (context & settings & Hnone & Hp & Hinstruction).
  split; [now exists context, settings|].
  rewrite Hinstruction, <- Hp. now apply location_line_blank.
Qed.

End MoreSessionProperties.

(** ** The clock of the HUD *)

(** X12. The HUD shows the second of the fields of [currentTime] that blanks
    separate: of a date, a time and anything after them it shows the time
    alone (the AM or PM of a twelve-hour clock is dropped), and of a text
    without a blank it shows nothing. *)
Theorem hud_clock_second_field {number : Type} (context : DeviceContext number) :
  (forall date time rest,
     currentTime context = date ++ " " ++ time ++ " " ++ rest ->
     has_char " " date = false -> has_char " " time = false ->
     hudClock context = Some time)
  /\ (forall date time,
        currentTime context = date ++ " " ++ time ->
        has_char " " date = false -> has_char " " time = false ->
        hudClock context = Some time)
  /\ (has_char " " (currentTime context) = false -> hudClock context = None).
Proof.
  unfold hudClock. split; [|split].
  - intros date time rest -> Hdate Htime.
    change (date ++ " " ++ time ++ " " ++ rest)
      with (date ++ String " " (time ++ String " " rest)).
    rewrite split_at_first by exact Hdate.
    rewrite split_at_first by exact Htime.
    reflexivity.
  - intros date time -> Hdate Htime.
    change (date ++ " " ++ time) with (date ++ String " " time).
    rewrite split_at_first by exact Hdate.
    rewrite split_without by exact Htime.
    reflexivity.
  - intros Hnone. now rewrite split_without.
Qed.

(** ** The further properties on the inputs of the examples *)

Lemma answered_turn_from_idle_witness :
  let waiting : list (@Event Q) := [Elapse 1200; TypeInput "hello?"; Elapse 34] in
  let sent := step exampleEnv readyWorld Send in
  let answered :=
    step exampleEnv (run exampleEnv sent waiting) (Settle 0 answeringSdk) in
  let early := run exampleEnv answered [Elapse 500; TypeInput "thanks"; Elapse 299] in
  let late := run exampleEnv answered [Elapse 500; TypeInput "thanks"; Elapse 300] in
  (now sent = 1000%Z /\ now answered = 2234%Z
   /\ now early = 3033%Z /\ now late = 3034%Z)
  /\ (orionState (app sent) = OrionState.Thinking
      /\ orionState (app answered) = OrionState.Responding)
  /\ (orionState (app early) = OrionState.Responding
      /\ map text (messages (app early)) = [INITIAL_GREETING; "status?"])
  /\ (orionState (app late) = OrionState.Idle
      /\ timers late = []
      /\ map text (messages (app late))
         = [INITIAL_GREETING; "status?"; "All systems nominal."]).
Proof.
  pose proof (answered_turn_from_idle exampleEnv readyWorld answeringSdk "key"
                (mkResponse (Some "All systems nominal."))
                [Elapse 1200; TypeInput "hello?"; Elapse 34]
                [Elapse 500; TypeInput "thanks"; Elapse 299]
                eq_refl eq_refl eq_refl eq_refl eq_refl eq_refl eq_refl eq_refl)
    as (H1 & _ & H3 & E4 & _).
  pose proof (answered_turn_from_idle exampleEnv readyWorld answeringSdk "key"
                (mkResponse (Some "All systems nominal."))
                [Elapse 1200; TypeInput "hello?"; Elapse 34]
                [Elapse 500; TypeInput "thanks"; Elapse 300]
                eq_refl eq_refl eq_refl eq_refl eq_refl eq_refl eq_refl eq_refl)
    as (_ & _ & _ & _ & L5).
  cbv zeta.
  split; [repeat split|].
  split; [exact (conj (proj1 H1) (proj1 H3))|].
  split.
  - split; [exact (proj1 (E4 eq_refl))|].
    exact (eq_trans (f_equal (map text) (proj2 (E4 eq_refl))) eq_refl).
  - pose proof (L5 (fun Hgt => match Hgt with eq_refl => I end))
      as (S5 & T5 & _).
    split; [exact S5|]. split; [exact T5 | reflexivity].
Defined.

Lemma request_is_snapshot_witness :
  let edits : list (@Event Q) :=
    [ TypeInput "and the weather?";
      FileLoaded "data:image/png;base64,R0lG";
      ChangeSettings (fun _ => mkSettings direct minimal false) ] in
  let w' := run exampleEnv readyWorld ([Send] ++ edits ++ [Settle 0 answeringSdk]) in
  (exists logged,
     performed w' = GenerateContent (pendingRequest (app readyWorld)) :: logged
     /\ forall again, In (GenerateContent again) logged -> False)
  /\ awaiting w' = [].
Proof.
  pose proof (request_is_snapshot exampleEnv readyWorld answeringSdk "key"
                [ TypeInput "and the weather?";
                  FileLoaded "data:image/png;base64,R0lG";
                  ChangeSettings (fun _ => mkSettings direct minimal false) ]
                eq_refl eq_refl eq_refl eq_refl)
    as (H1 & _ & _ & _ & H5).
  cbv zeta. split; [exact H1 | exact H5].
Defined.

Lemma attachments_life_cycle_witness :
  let pes : list (@PageEvent Q) :=
    [ FilesChosen ["data:image/png;base64,QQ=="; "data:image/png;base64,Qg=="];
      FilesChosen [];
      FilesChosen ["data:image/jpeg;base64,Qw=="];
      ReadEnded "data:image/jpeg;base64,Qw==";
      FilesChosen ["data:image/gif;base64,RA=="];
      ReadEnded "data:image/png;base64,QQ==" ] in
  let loaded := pageRun exampleEnv readyWorld pes in
  (forallb isUpload pes = true
   /\ readsInFlight [] pes = Some ["data:image/gif;base64,RA=="])
  /\ attachedImages (app loaded)
     = ["data:image/jpeg;base64,Qw=="; "data:image/png;base64,QQ=="]
  /\ Permutation
       (["data:image/jpeg;base64,Qw=="; "data:image/png;base64,QQ=="]
        ++ ["data:image/gif;base64,RA=="])%list
       ["data:image/png;base64,QQ=="; "data:image/jpeg;base64,Qw==";
        "data:image/gif;base64,RA=="].
Proof.
  pose proof (attachments_life_cycle exampleEnv readyWorld
                [ FilesChosen ["data:image/png;base64,QQ=="; "data:image/png;base64,Qg=="];
                  FilesChosen [];
                  FilesChosen ["data:image/jpeg;base64,Qw=="];
                  ReadEnded "data:image/jpeg;base64,Qw==";
                  FilesChosen ["data:image/gif;base64,RA=="];
                  ReadEnded "data:image/png;base64,QQ==" ]
                ["data:image/gif;base64,RA=="] eq_refl eq_refl)
    as (_ & H2 & H3 & _).
  cbv zeta.
  split; [split; reflexivity|].
  split; [exact (eq_trans H2 eq_refl) | exact H3].
Defined.

Lemma calls_pile_up_witness :
  exists events,
    let w := run exampleEnv
               (initialWorld (number := Q) exampleEnv 0 "11/2/2026, 1:33:00 PM")
               events in
    orionState (app w) = OrionState.Thinking
    /\ List.length (awaiting w) = 3
    /\ Forall (fun c =>
                 forall sdk, exists effects,
                   snd (generateOrionResponse (API_KEY exampleEnv) sdk
                          (call_history c) (call_prompt c) (call_images c)
                          (call_context c) (call_settings c))
                   = GenerateContent (callRequest c) :: effects)
         (awaiting w).
Proof.
  exact (calls_pile_up exampleEnv "key" 0 "11/2/2026, 1:33:00 PM" 2
           eq_refl eq_refl).
Defined.


Lemma idle_again_within_3000_witness :
  let w := run exampleEnv (initialWorld (number := Q) exampleEnv 0 "11/2/2026, 1:33:00 PM")
             [Elapse 1000; TypeInput "status?"; Send; Settle 0 failingSdk] in
  orionState (app w) = OrionState.Error
  /\ orionState (app (step exampleEnv w (Elapse 3000))) = OrionState.Idle
  /\ timers (step exampleEnv w (Elapse 3000)) = [].
Proof.
  cbv zeta. split; [reflexivity|].
  apply (idle_again_within_3000 exampleEnv 0 "11/2/2026, 1:33:00 PM"
           [Elapse 1000; TypeInput "status?"; Send; Settle 0 failingSdk] 3000).
  - right. reflexivity.
  - discriminate.
Defined.

(** ** What a choice or an observation changes in the next request *)

Lemma sameExcept_three (a b c a' b' c' post : string) :
  sameExcept (a ++ b ++ c ++ post) (a' ++ b' ++ c' ++ post)
    (a ++ b ++ c) (a' ++ b' ++ c').
Proof. exists EmptyString, post. simpl. now rewrite !append_assoc. Qed.

Section LocalChanges.
Context {number : Type} `{JsNumber number}.

(** X13. A choice in the settings panel or a report of an observer changes
    the request of the next send in its own place only. The message parts
    are never touched. In the system instruction a chosen personality
    replaces the tone description, a clock tick the time, a connectivity
    event the Online or Offline word, a battery report the power reading
    and the charging word, each where it stood and nothing else; choosing a
    visual intensity and opening or closing the panel change nothing. *)
Theorem changes_are_local (env : Environment) (w : @World number) :
  let context := deviceContext (app w) in
  let before := pendingRequest (app w) in
  let after pe := pendingRequest (app (pageStep env w pe)) in
  (forall v, after (IntensityChosen v) = before)
  /\ after SettingsOpened = before
  /\ after SettingsClosed = before
  /\ (forall p,
        parts (after (PersonalityChosen p)) = parts before
        /\ sameExcept (systemInstruction before)
             (systemInstruction (after (PersonalityChosen p)))
             (personalityTraits (personality (settings (app w))))
             (personalityTraits p))
  /\ (forall o, parts (after (Observed o)) = parts before)
  /\ (forall localeTime,
        sameExcept (systemInstruction before)
          (systemInstruction (after (Observed (ClockTick localeTime))))
          (currentTime context) localeTime)
  /\ sameExcept (systemInstruction before)
       (systemInstruction (after (Observed WentOnline)))
       (connectionText context) "Online"
  /\ sameExcept (systemInstruction before)
       (systemInstruction (after (Observed WentOffline)))
       (connectionText context) "Offline"
  /\ (forall level charging,
        sameExcept (systemInstruction before)
          (systemInstruction (after (Observed (BatteryChanged level charging))))
          (powerText context ++ " " ++ chargingText context)
          ((percent level ++ "%") ++ " "
           ++ (if charging then "(Charging)" else "(Discharging)"))).
Proof.
  intros context before after. subst context before after.
  unfold pageStep, pageEvents, pendingRequest, requestOf. simpl.
  split; [reflexivity|]. split; [now destruct w as [[] ? ? ? ?]|].
  split; [now destruct w as [[] ? ? ? ?]|].
  split; [|split; [reflexivity|]].
  - intros p. split; [reflexivity|].
    unfold getSystemInstruction.
    cbn [personality visualIntensity voiceEnabled].
    repeat apply sameExcept_later. apply sameExcept_here.
  - split; [|split; [|split]].
    + intros localeTime.
      unfold getSystemInstruction, connectionText, powerText, chargingText,
        locationText.
      cbn [geolocation batteryLevel isCharging isOnline platform currentTime].
      repeat apply sameExcept_later. apply sameExcept_here.
    + unfold getSystemInstruction, powerText, chargingText, locationText.
      unfold connectionText at 2.
      cbn [geolocation batteryLevel isCharging isOnline platform currentTime].
      repeat apply sameExcept_later. apply sameExcept_here.
    + unfold getSystemInstruction, powerText, chargingText, locationText.
      unfold connectionText at 2.
      cbn [geolocation batteryLevel isCharging isOnline platform currentTime].
      repeat apply sameExcept_later. apply sameExcept_here.
    + intros level charging.
      unfold getSystemInstruction, connectionText, locationText.
      unfold powerText at 2. unfold chargingText at 2.
      cbn [geolocation batteryLevel isCharging isOnline platform currentTime].
      repeat apply sameExcept_later.
      apply sameExcept_three.
Qed.

End LocalChanges.
